(** * API access-log dashboard: aggregation and filtering (src/Logsv2.jsx)

    A shallow embedding of the three computations that the [Logsv2]
    component runs over its in-memory log array:

    - [calculateMetrics]   (summary cards),
    - [generateGraphData]  (the 24-bar hourly histogram),
    - [filteredLogs]       (the table filter; the file holds a basic and an
                            "enhanced" version of the component).

    JavaScript values are modelled as follows.  Integers that the code
    only counts with ([length], [++]) are [nat]; integer record fields
    ([status], [latency], ...) are [Z]; the results of [/], [*] and
    [Math.round] are [JS.number], exact rationals extended with [NaN]
    and the two infinities.  The code computes with binary64 doubles:
    counts, comparisons and sums of integers below [2^53] are exact
    there, quotients and products are rounded to 53 bits, which the model
    does not do (nor has it a negative zero).  A property whose truth
    depends on the value of a quotient states the range of latencies in
    which the rounding cannot be observed ([latencies_in_range]).  The
    module [Double] has the rounding to binary64, and
    [avgLatency_double] is the average computed with it:
    [avgLatency_double_exact] shows that it is the average of the exact
    model on that range.
    Strings are [string], read as ASCII: [toLowerCase] is modelled on
    ASCII text, and a property that depends on it asks for ASCII strings
    ([all_ascii]).  The object [hourlyData], used as a dictionary keyed by the
    label ["HH:00"], is a [gmap string Hourly.t]. *)

From Stdlib Require Import ZArith QArith Qround Qabs Qpower Qreduction.
From Stdlib Require Import Ascii Lia Lqa.
From stdpp Require Import base option list strings gmap pretty sorting.

Local Open Scope Z_scope.

(** ** JavaScript numbers *)

Module JS.

Inductive number : Type :=
  | Num (q : Q)
  | NaN
  | PosInfinity
  | NegInfinity.

Definition of_Z (z : Z) : number := Num (inject_Z z).
Definition of_nat (n : nat) : number := of_Z (Z.of_nat n).

Definition signed_infinity (positive : bool) : number :=
  if positive then PosInfinity else NegInfinity.

(** [x / y]: a zero divisor yields [NaN] or an infinity, never an
    exception.  The quotient is the exact one; the double of the code is
    this value rounded to 53 bits. *)
Definition div (x y : number) : number :=
  match x, y with
  | Num a, Num b =>
      if Qeq_bool b 0 then
        match (a ?= 0)%Q with
        | Eq => NaN
        | Gt => PosInfinity
        | Lt => NegInfinity
        end
      else Num (a / b)
  | Num _, (PosInfinity | NegInfinity) => Num 0
  | PosInfinity, Num b => signed_infinity (Qle_bool 0 b)
  | NegInfinity, Num b => signed_infinity (negb (Qle_bool 0 b))
  | _, _ => NaN
  end.

(** [x * y], exact; the double of the code is this value rounded to 53
    bits. *)
Definition mul (x y : number) : number :=
  match x, y with
  | Num a, Num b => Num (a * b)
  | Num a, PosInfinity | PosInfinity, Num a =>
      match (a ?= 0)%Q with
      | Eq => NaN
      | Gt => PosInfinity
      | Lt => NegInfinity
      end
  | Num a, NegInfinity | NegInfinity, Num a =>
      match (a ?= 0)%Q with
      | Eq => NaN
      | Gt => NegInfinity
      | Lt => PosInfinity
      end
  | PosInfinity, PosInfinity | NegInfinity, NegInfinity => PosInfinity
  | PosInfinity, NegInfinity | NegInfinity, PosInfinity => NegInfinity
  | _, _ => NaN
  end.

(** [Math.round(x)]: the nearest integer, a tie going towards
    [+Infinity], that is [floor(x + 1/2)]. *)
Definition Math_round (x : number) : number :=
  match x with
  | Num q => of_Z (Qfloor (q + (1 # 2)))
  | _ => x
  end.

(** [Math.max(...xs)] over integers: [-Infinity] for no argument. *)
Definition Math_max (xs : list Z) : number :=
  match xs with
  | [] => NegInfinity
  | x :: xs' => of_Z (fold_left Z.max xs' x)
  end.

(** A number is finite when it is neither [NaN] nor an infinity. *)
Definition isFinite (x : number) : bool :=
  match x with Num _ => true | _ => false end.

(** [x < y] and [x > y]: a comparison with [NaN] is [false]. *)
Definition lt (x y : number) : bool :=
  match x, y with
  | NaN, _ | _, NaN => false
  | Num a, Num b => negb (Qle_bool b a)
  | NegInfinity, (Num _ | PosInfinity) => true
  | Num _, PosInfinity => true
  | _, _ => false
  end.

Definition gt (x y : number) : bool := lt y x.

(** *** Strings *)

(** A string is truthy when it is not empty. *)
Definition truthy (s : string) : bool := bool_decide (s ≠ "").

Definition lower_char (c : ascii) : ascii :=
  let n := nat_of_ascii c in
  if (65 <=? n)%nat && (n <=? 90)%nat then ascii_of_nat (n + 32) else c.

(** [s.toLowerCase()] on ASCII text: the letters [A] to [Z] become [a]
    to [z].  On other text the code also lower-cases letters outside
    ASCII, which this function leaves alone. *)
Fixpoint toLowerCase (s : string) : string :=
  match s with
  | EmptyString => EmptyString
  | String c s' => String (lower_char c) (toLowerCase s')
  end.

(** [s.includes(t)]: [t] occurs in [s] at some offset. *)
Fixpoint includes (s t : string) : bool :=
  String.prefix t s ||
  match s with
  | EmptyString => false
  | String _ s' => includes s' t
  end.

(** [String(z)] for an integer. *)
Definition String_ (z : Z) : string := pretty z.

(** The first [n] characters of [pad] repeated, [cur] being what is left
    of the copy in progress. *)
Fixpoint fill (n : nat) (cur pad : string) : string :=
  match n with
  | O => EmptyString
  | S n' =>
      match cur with
      | String c cur' => String c (fill n' cur' pad)
      | EmptyString =>
          match pad with
          | String c pad' => String c (fill n' pad' pad)
          | EmptyString => EmptyString
          end
      end
  end.

(** [s.padStart(targetLength, padString)]. *)
Definition padStart (s : string) (targetLength : nat) (padString : string)
  : string :=
  fill (targetLength - String.length s) padString padString +:+ s.

(** [s.split(sep)] for a one-character separator. *)
Fixpoint split (sep : ascii) (s : string) : list string :=
  match s with
  | EmptyString => [EmptyString]
  | String c s' =>
      if bool_decide (c = sep) then EmptyString :: split sep s'
      else
        match split sep s' with
        | piece :: pieces => String c piece :: pieces
        | [] => [String c EmptyString]
        end
  end.

(** [xs[0]] converted to a string, as [parseInt] does with its argument:
    a missing element reads [undefined]. *)
Definition first_string (xs : list string) : string :=
  default "undefined" (xs !! 0%nat).

Definition isWhiteSpace (c : ascii) : bool :=
  let n := nat_of_ascii c in
  ((9 <=? n)%nat && (n <=? 13)%nat) || (n =? 32)%nat.

Fixpoint trimStart (s : string) : string :=
  match s with
  | String c s' => if isWhiteSpace c then trimStart s' else s
  | EmptyString => EmptyString
  end.

Definition digit_value (radix : Z) (c : ascii) : option Z :=
  let n := Z.of_nat (nat_of_ascii c) in
  let v :=
    if (48 <=? n) && (n <=? 57) then Some (n - 48)
    else if (97 <=? n) && (n <=? 122) then Some (n - 87)
    else if (65 <=? n) && (n <=? 90) then Some (n - 55)
    else None in
  match v with
  | Some d => if d <? radix then Some d else None
  | None => None
  end.

(** The value of the longest prefix of digits, [None] when it is empty. *)
Fixpoint digits (radix : Z) (s : string) (acc : option Z) : option Z :=
  match s with
  | String c s' =>
      match digit_value radix c with
      | Some d => digits radix s' (Some (radix * default 0 acc + d))
      | None => acc
      end
  | EmptyString => acc
  end.

(** [parseInt(s)] with no radix argument: leading white space, a sign, an
    optional [0x] prefix, then the digits; [NaN] when there is none. *)
Definition parseInt (s : string) : number :=
  let s := trimStart s in
  let '(sign, s) :=
    match s with
    | String "-"%char s' => (-1, s')
    | String "+"%char s' => (1, s')
    | _ => (1, s)
    end in
  let '(radix, s) :=
    match s with
    | String "0"%char (String "x"%char s')
    | String "0"%char (String "X"%char s') => (16, s')
    | _ => (10, s)
    end in
  match digits radix s None with
  | Some v => of_Z (sign * v)
  | None => NaN
  end.

End JS.

(** ** Binary64 arithmetic

    The operations of the code on doubles: the exact result rounded to
    the nearest double, a tie going to the even significand (IEEE 754
    roundTiesToEven, which ECMAScript prescribes for [+], [*] and [/]).
    A double is kept as the rational it denotes, in lowest terms. *)

Module Double.

(** The exponent [e] of the binade of a non-zero rational:
    [2^e <= |x| < 2^(e+1)]. *)
Definition binade (x : Q) : Z :=
  let e := Z.log2 (Z.abs (Qnum x)) - Z.log2 (Z.pos (Qden x)) in
  if Qle_bool (2 ^ e) (Qabs x) then e else e - 1.

(** The unit in the last place of the doubles near [x]: 53 significant
    bits, the subnormal doubles being spaced by [2^-1074]. *)
Definition ulp (x : Q) : Q := (2 ^ Z.max (binade x - 52) (-1074))%Q.

(** The integer nearest to [x], a tie going to the even one. *)
Definition nearest_even (x : Q) : Z :=
  let f := Qfloor x in
  match (x - inject_Z f ?= 1 # 2)%Q with
  | Lt => f
  | Eq => if Z.even f then f else f + 1
  | Gt => f + 1
  end.

(** The double nearest to a rational (round to nearest, ties to even);
    an infinity from [2^1024] on. *)
Definition round (x : Q) : JS.number :=
  if Qeq_bool x 0 then JS.Num 0
  else
    let r := (inject_Z (nearest_even (x / ulp x)) * ulp x)%Q in
    if Qle_bool (2 ^ 1024) (Qabs r)
    then JS.signed_infinity (Qle_bool 0 x)
    else JS.Num (Qred r).

(** [x + y] and [x / y] on doubles. *)
Definition add (x y : JS.number) : JS.number :=
  match x, y with
  | JS.Num a, JS.Num b => round (a + b)
  | JS.NaN, _ | _, JS.NaN => JS.NaN
  | JS.PosInfinity, JS.NegInfinity | JS.NegInfinity, JS.PosInfinity => JS.NaN
  | JS.PosInfinity, _ | _, JS.PosInfinity => JS.PosInfinity
  | JS.NegInfinity, _ | _, JS.NegInfinity => JS.NegInfinity
  end.

Definition div (x y : JS.number) : JS.number :=
  match x, y with
  | JS.Num a, JS.Num b => if Qeq_bool b 0 then JS.div x y else round (a / b)
  | _, _ => JS.div x y
  end.

Definition mul (x y : JS.number) : JS.number :=
  match x, y with
  | JS.Num a, JS.Num b => round (a * b)
  | _, _ => JS.mul x y
  end.

End Double.

(** ** Log records

    The field list is the one documented in the file's "API integration
    guide"; the last five fields only exist in the enhanced version.
    [timestamp] is documented as an ISO-format string: the model keeps the
    time value [new Date(timestamp)] denotes, in milliseconds since the
    epoch. *)

Module Log.

Record t : Type := mk {
  id : string;
  timestamp : Z;
  ip : string;
  method : string;
  endpoint : string;
  status : Z;
  latency : Z;
  proxyLatency : Z;
  success : bool;
  userAgent : string;
  size : Z;
  location : string;
  applicationName : string;
  applicationId : string;
  userName : string;
  userId : string;
  apiName : string
}.

End Log.

Abbreviation LogRecord := Log.t.

(** ** calculateMetrics *)

Record Metrics : Type := {
  totalRequests : nat;
  failedRequests : nat;
  avgLatency : JS.number;
  uniqueIPs : nat;
  successRate : JS.number;
  peakLatency : JS.number
}.

Definition calculateMetrics (logs : list LogRecord) : Metrics :=
  let totalRequests := length logs in
  let failedRequests :=
    length (List.filter (λ log, Log.status log >=? 400) logs) in
  let latencies := map Log.latency logs in
  let avgLatency :=
    if (0 <? length latencies)%nat
    then JS.Math_round
           (JS.div (JS.of_Z (fold_left (λ a b, a + b) latencies 0))
                   (JS.of_nat (length latencies)))
    else JS.of_Z 0 in
  let uniqueIPs := size (list_to_set (map Log.ip logs) : gset string) in
  let successRate :=
    if (0 <? totalRequests)%nat
    then JS.mul
           (JS.div (JS.of_Z (Z.of_nat totalRequests - Z.of_nat failedRequests))
                   (JS.of_nat totalRequests))
           (JS.of_Z 100)
    else JS.of_Z 0 in
  let peakLatency :=
    if (0 <? length latencies)%nat then JS.Math_max latencies else JS.of_Z 0 in
  {| totalRequests := totalRequests;
     failedRequests := failedRequests;
     avgLatency := avgLatency;
     uniqueIPs := uniqueIPs;
     successRate := successRate;
     peakLatency := peakLatency |}.

(** [avgLatency] as line 1150 computes it, every operation on doubles. *)
Definition avgLatency_double (logs : list LogRecord) : JS.number :=
  let latencies := map (λ log, JS.of_Z (Log.latency log)) logs in
  if (0 <? length latencies)%nat
  then JS.Math_round
         (Double.div (fold_left (λ a b, Double.add a b) latencies (JS.of_Z 0))
                     (JS.of_nat (length latencies)))
  else JS.of_Z 0.

(** [successRate] as line 1152 computes it, the quotient and the product
    on doubles (the counts and their difference are exact). *)
Definition successRate_double (logs : list LogRecord) : JS.number :=
  let totalRequests := length logs in
  let failedRequests :=
    length (List.filter (λ log, Log.status log >=? 400) logs) in
  if (0 <? totalRequests)%nat
  then Double.mul
         (Double.div (JS.of_Z (Z.of_nat totalRequests - Z.of_nat failedRequests))
                     (JS.of_nat totalRequests))
         (JS.of_Z 100)
  else JS.of_Z 0.

(** ** Dates

    [new Date(ts).getHours()] is the hour of the day of the time value in
    the runtime's local time zone.  The zone is a parameter of the
    component: [LocalTZA t] is the offset of local time from UTC, in
    milliseconds, at the time value [t]. *)

Definition msPerHour : Z := 3600000.
Definition HoursPerDay : Z := 24.

Definition getHours (LocalTZA : Z → Z) (t : Z) : Z :=
  ((t + LocalTZA t) `div` msPerHour) `mod` HoursPerDay.

(** ** Chart data *)

Module Hourly.
Record t : Type := mk { requests : nat; errors : nat; success : nat }.
End Hourly.

Module Graph.
Record t : Type := mk {
  time : string;
  requests : nat;
  errors : nat;
  success : nat
}.
End Graph.

(** ** Filter state of the component

    The object [filters].  The filter bar replaces a property with
    [{...filters, [key]: value}] and removes one with
    [delete newFilters[key]], so each property is either a string or
    absent ([None], read as [undefined]). *)

Module Filters.

Record t : Type := mk {
  search : option string;
  method : option string;
  status : option string;
  timeRange : option string
}.

Inductive key : Type := Search | Method | Status | TimeRange.

(** [{...filters, [key]: value}] *)
Definition set (k : key) (value : string) (filters : t) : t :=
  match k with
  | Search => mk (Some value) (method filters) (status filters) (timeRange filters)
  | Method => mk (search filters) (Some value) (status filters) (timeRange filters)
  | Status => mk (search filters) (method filters) (Some value) (timeRange filters)
  | TimeRange => mk (search filters) (method filters) (status filters) (Some value)
  end.

(** [delete filters[key]] on a copy *)
Definition remove (k : key) (filters : t) : t :=
  match k with
  | Search => mk None (method filters) (status filters) (timeRange filters)
  | Method => mk (search filters) None (status filters) (timeRange filters)
  | Status => mk (search filters) (method filters) None (timeRange filters)
  | TimeRange => mk (search filters) (method filters) (status filters) None
  end.

End Filters.

Module TimeRange.
Record t : Type := mk { startTime : string; endTime : string }.
End TimeRange.

(** ** Component state

    The hooks [useState] of the component that the filter reads: the log
    array, the filter bar and the brush selection. *)

Module State.
Record t : Type := mk {
  logs : list LogRecord;
  filters : Filters.t;
  selectedTimeRange : option TimeRange.t
}.
End State.

(** Code that runs against the component state: a computation returns
    its result and the state it leaves. *)
Definition Render (A : Type) : Type := State.t → A * State.t.

#[global] Instance Render_ret : MRet Render := λ A x st, (x, st).

#[global] Instance Render_bind : MBind Render :=
  λ A B f m st, let '(x, st') := m st in f x st'.

(** Reading a state variable. *)
Definition read {A : Type} (var : State.t → A) : Render A :=
  λ st, (var st, st).

(** The setters returned by [useState]. *)
Definition setLogs (logs : list LogRecord) : Render unit :=
  λ st, (tt, State.mk logs (State.filters st) (State.selectedTimeRange st)).

Definition setFilters (filters : Filters.t) : Render unit :=
  λ st, (tt, State.mk (State.logs st) filters (State.selectedTimeRange st)).

Definition setSelectedTimeRange (range : option TimeRange.t) : Render unit :=
  λ st, (tt, State.mk (State.logs st) (State.filters st) range).

(** [xs.filter(callback)] with a callback that runs against the state:
    the elements are visited in order and the result is a new array. *)
Fixpoint Array_filter {A : Type} (callback : A → Render bool) (xs : list A)
  : Render (list A) :=
  match xs with
  | [] => mret ([] : list A)
  | x :: xs' =>
      kept ← callback x;
      rest ← Array_filter callback xs';
      mret (if (kept : bool) then x :: rest else rest)
  end.

Section Component.

Variable LocalTZA : Z → Z.

(** *** generateGraphData *)

(** The body of the [forEach] callback, on the dictionary [hourlyData].
    [!hourlyData[timeKey]] holds exactly when the key is absent: the
    stored values are objects, and a key ["HH:00"] is no property of
    [Object.prototype]. *)
Definition group_by_hour (hourlyData : gmap string Hourly.t) (log : LogRecord)
  : gmap string Hourly.t :=
  let hour := getHours LocalTZA (Log.timestamp log) in
  let timeKey := JS.padStart (JS.String_ hour) 2 "0" +:+ ":00" in
  let hourlyData :=
    match hourlyData !! timeKey with
    | None => <[timeKey := Hourly.mk 0 0 0]> hourlyData
    | Some _ => hourlyData
    end in
  let hourlyData :=
    alter (λ b, Hourly.mk (S (Hourly.requests b)) (Hourly.errors b)
                          (Hourly.success b)) timeKey hourlyData in
  if Log.status log >=? 400 then
    alter (λ b, Hourly.mk (Hourly.requests b) (S (Hourly.errors b))
                          (Hourly.success b)) timeKey hourlyData
  else
    alter (λ b, Hourly.mk (Hourly.requests b) (Hourly.errors b)
                          (S (Hourly.success b))) timeKey hourlyData.

(** [hourlyData[timeKey]?.field || 0]. *)
Definition field_or_0 (field : Hourly.t → nat) (entry : option Hourly.t)
  : nat :=
  match entry with
  | Some b => if (field b =? 0)%nat then 0%nat else field b
  | None => 0%nat
  end.

Definition generateGraphData (logs : list LogRecord) : list Graph.t :=
  let hourlyData := fold_left group_by_hour logs ∅ in
  map (λ i : Z,
         let timeKey := JS.padStart (JS.String_ i) 2 "0" +:+ ":00" in
         {| Graph.time := timeKey;
            Graph.requests := field_or_0 Hourly.requests (hourlyData !! timeKey);
            Graph.errors := field_or_0 Hourly.errors (hourlyData !! timeKey);
            Graph.success := field_or_0 Hourly.success (hourlyData !! timeKey) |})
      (seqZ 0 24).

(** *** filteredLogs

    [logs], [filters] and [selectedTimeRange] are state of the component,
    read by the callback of [logs.filter].  The part of the callback from
    the method filter on is the same text in both versions of the
    component; only the search filter differs. *)

(** The time-range filter (histogram brush selection) and the final
    [return true]. *)
Definition time_range_filter (selectedTimeRange : option TimeRange.t)
    (log : LogRecord) : bool :=
  match selectedTimeRange with
  | Some range =>
      let logHour := getHours LocalTZA (Log.timestamp log) in
      let logTimeKey := JS.padStart (JS.String_ logHour) 2 "0" +:+ ":00" in
      let startHour :=
        JS.parseInt
          (JS.first_string (JS.split ":" (TimeRange.startTime range))) in
      let endHour :=
        JS.parseInt
          (JS.first_string (JS.split ":" (TimeRange.endTime range))) in
      let currentHour :=
        JS.parseInt (JS.first_string (JS.split ":" logTimeKey)) in
      if JS.lt currentHour startHour || JS.gt currentHour endHour
      then false
      else true
  | None => true
  end.

(** The callback of the basic version.  A comparison [!==] or [===] of a
    property of [filters] with a string is a comparison of [option string]
    values: an absent property differs from every string. *)
Definition keep_log (filters : Filters.t)
    (selectedTimeRange : option TimeRange.t) (log : LogRecord) : bool :=
  (* Search filter *)
  if match Filters.search filters with
     | Some search =>
         JS.truthy search
         && negb (JS.includes (JS.toLowerCase (Log.endpoint log))
                              (JS.toLowerCase search))
     | None => false
     end
  then false
  (* Method filter *)
  else if bool_decide (Filters.method filters ≠ Some "all")
          && bool_decide (Some (Log.method log) ≠ Filters.method filters)
  then false
  (* Status filter *)
  else if bool_decide (Filters.status filters ≠ Some "all") then
    if bool_decide (Filters.status filters = Some "success")
       && (Log.status log >=? 400)
    then false
    else if bool_decide (Filters.status filters = Some "error")
            && (Log.status log <? 400)
    then false
    else time_range_filter selectedTimeRange log
  else time_range_filter selectedTimeRange log.

Definition filteredLogs (logs : list LogRecord) (filters : Filters.t)
    (selectedTimeRange : option TimeRange.t) : list LogRecord :=
  List.filter (keep_log filters selectedTimeRange) logs.

(** The callback of the enhanced version: the search also looks at the
    application, user and API names and at the client address. *)
Definition keep_log_enhanced (filters : Filters.t)
    (selectedTimeRange : option TimeRange.t) (log : LogRecord) : bool :=
  (* Enhanced search filter *)
  if match Filters.search filters with
     | Some search =>
         JS.truthy search
         && (let searchTerm := JS.toLowerCase search in
             negb (JS.includes (JS.toLowerCase (Log.endpoint log)) searchTerm)
             && negb (JS.includes (JS.toLowerCase (Log.applicationName log))
                                  searchTerm)
             && negb (JS.includes (JS.toLowerCase (Log.userName log))
                                  searchTerm)
             && negb (JS.includes (JS.toLowerCase (Log.apiName log))
                                  searchTerm)
             && negb (JS.includes (JS.toLowerCase (Log.ip log)) searchTerm))
     | None => false
     end
  then false
  (* Method filter *)
  else if bool_decide (Filters.method filters ≠ Some "all")
          && bool_decide (Some (Log.method log) ≠ Filters.method filters)
  then false
  (* Status filter *)
  else if bool_decide (Filters.status filters ≠ Some "all") then
    if bool_decide (Filters.status filters = Some "success")
       && (Log.status log >=? 400)
    then false
    else if bool_decide (Filters.status filters = Some "error")
            && (Log.status log <? 400)
    then false
    else time_range_filter selectedTimeRange log
  else time_range_filter selectedTimeRange log.

Definition filteredLogs_enhanced (logs : list LogRecord) (filters : Filters.t)
    (selectedTimeRange : option TimeRange.t) : list LogRecord :=
  List.filter (keep_log_enhanced filters selectedTimeRange) logs.

(** *** Event handlers *)

(** The initial value of [filters]. *)
Definition initial_filters : Filters.t :=
  {| Filters.search := Some "";
     Filters.method := Some "all";
     Filters.status := Some "all";
     Filters.timeRange := Some "1h" |}.

Definition resetFilters : Render unit :=
  _ ← setFilters initial_filters;
  setSelectedTimeRange None.

(** The filter bar: [handleSearchChange], [handleFilterChange] and
    [removeFilter], with [onFiltersChange] bound to [setFilters]. *)
Definition handleSearchChange (value : string) : Render unit :=
  filters ← read State.filters;
  setFilters (Filters.set Filters.Search value filters).

Definition handleFilterChange (key : Filters.key) (value : string)
  : Render unit :=
  filters ← read State.filters;
  setFilters (Filters.set key value filters).

Definition removeFilter (key : Filters.key) : Render unit :=
  filters ← read State.filters;
  setFilters (Filters.remove key filters).

(** What the method drop-down of the filter bar displays:
    [filters.method || 'all']. *)
Definition displayed_method (filters : Filters.t) : string :=
  match Filters.method filters with
  | Some m => if JS.truthy m then m else "all"
  | None => "all"
  end.

(** [handleTimeRangeSelect(startTime, endTime)]: the chart passes two
    labels of [graphData], or [null] twice to clear the selection. *)
Definition handleTimeRangeSelect (startTime endTime : option string)
  : Render unit :=
  match startTime, endTime with
  | Some startTime, Some endTime =>
      if JS.truthy startTime && JS.truthy endTime
      then setSelectedTimeRange (Some (TimeRange.mk startTime endTime))
      else setSelectedTimeRange None
  | _, _ => setSelectedTimeRange None
  end.

(** *** The filter on a render

    [filteredLogs] is recomputed on each render of the component; the
    callback reads [filters] and [selectedTimeRange] from the state as it
    goes. *)
Definition keep_log_render (log : LogRecord) : Render bool :=
  search ← read (Filters.search ∘ State.filters);
  if match search with
     | Some search =>
         JS.truthy search
         && negb (JS.includes (JS.toLowerCase (Log.endpoint log))
                              (JS.toLowerCase search))
     | None => false
     end
  then mret false
  else
    method ← read (Filters.method ∘ State.filters);
    if bool_decide (method ≠ Some "all")
       && bool_decide (Some (Log.method log) ≠ method)
    then mret false
    else
      status ← read (Filters.status ∘ State.filters);
      selectedTimeRange ← read State.selectedTimeRange;
      if bool_decide (status ≠ Some "all") then
        if bool_decide (status = Some "success") && (Log.status log >=? 400)
        then mret false
        else if bool_decide (status = Some "error") && (Log.status log <? 400)
        then mret false
        else mret (time_range_filter selectedTimeRange log)
      else mret (time_range_filter selectedTimeRange log).

Definition render_filteredLogs : Render (list LogRecord) :=
  logs ← read State.logs;
  Array_filter keep_log_render logs.

End Component.

(** * More of the component *)

(** ** Summary cards

    The number that the "Error Rate" card formats with [toFixed(1)]:
    [(metrics.failedRequests / metrics.totalRequests) * 100].  The
    "Success Rate" card formats [metrics.successRate]. *)
Definition errorRate_card (metrics : Metrics) : JS.number :=
  JS.mul
    (JS.div (JS.of_nat (failedRequests metrics))
            (JS.of_nat (totalRequests metrics)))
    (JS.of_Z 100).

(** ** Refreshing the data

    [xs.sort(compareFn)]: the sort is stable, and [a] stays before [b]
    unless [compareFn(a, b) > 0].  For a comparator that orders the
    elements by a key this fixes the result, computed here by insertion. *)
Fixpoint sort_insert {A : Type} (compareFn : A → A → Z) (x : A)
    (sorted : list A) : list A :=
  match sorted with
  | [] => [x]
  | y :: sorted' =>
      if 0 <? compareFn x y
      then y :: sort_insert compareFn x sorted'
      else x :: sorted
  end.

Definition Array_sort {A : Type} (compareFn : A → A → Z) (xs : list A)
  : list A :=
  foldr (sort_insert compareFn) [] xs.

(** [(a, b) => new Date(b.timestamp) - new Date(a.timestamp)] *)
Definition newest_first (a b : LogRecord) : Z :=
  Log.timestamp b - Log.timestamp a.

(** The state that a refresh writes: [logs] (inside [State.t]), [metrics]
    and [graphData]. *)
Module Dashboard.
Record t : Type := mk {
  state : State.t;
  metrics : Metrics;
  graphData : list Graph.t
}.
End Dashboard.

(** ** Chart brush *)

(** The argument [brushData] of the brush's [onChange]: a property that
    is not a number reads [None]. *)
Module Brush.
Record t : Type := mk { startIndex : option Z; endIndex : option Z }.
End Brush.

(** The state of [ChartSection]. *)
Module Chart.
Record t : Type := mk {
  brushStartIndex : option Z;
  brushEndIndex : option Z
}.
End Chart.

(** [xs[i]] for an integer [i]: [undefined] outside the array. *)
Definition at_index {A : Type} (xs : list A) (i : Z) : option A :=
  if i <? 0 then None else xs !! Z.to_nat i.

(** Truthiness of a value that is a string or [undefined]. *)
Definition truthy_value (v : option string) : bool :=
  match v with
  | Some s => JS.truthy s
  | None => false
  end.

(** ** Log table *)

(** The palette of a theme. *)
Module Colors.
Record t : Type := mk {
  background : string;
  surface : string;
  surfaceHover : string;
  border : string;
  text : string;
  textSecondary : string;
  textMuted : string;
  primary : string;
  success : string;
  warning : string;
  error : string;
  cardBg : string;
  headerBg : string
}.
End Colors.

(** [theme.colors] of [ThemeProvider]. *)
Definition theme_colors (isDark : bool) : Colors.t :=
  if isDark then
    {| Colors.background := "#111827";
       Colors.surface := "#1f2937";
       Colors.surfaceHover := "#374151";
       Colors.border := "#374151";
       Colors.text := "#f9fafb";
       Colors.textSecondary := "#d1d5db";
       Colors.textMuted := "#9ca3af";
       Colors.primary := "#3b82f6";
       Colors.success := "#10b981";
       Colors.warning := "#f59e0b";
       Colors.error := "#ef4444";
       Colors.cardBg := "#1f2937";
       Colors.headerBg := "#1f2937" |}
  else
    {| Colors.background := "#f9fafb";
       Colors.surface := "#ffffff";
       Colors.surfaceHover := "#f3f4f6";
       Colors.border := "#e5e7eb";
       Colors.text := "#111827";
       Colors.textSecondary := "#374151";
       Colors.textMuted := "#6b7280";
       Colors.primary := "#3b82f6";
       Colors.success := "#10b981";
       Colors.warning := "#f59e0b";
       Colors.error := "#ef4444";
       Colors.cardBg := "#ffffff";
       Colors.headerBg := "#ffffff" |}.

Module Badge.
Record t : Type := mk { bg : string; text : string }.
End Badge.

Definition getStatusColors (colors : Colors.t) (status : Z) : Badge.t :=
  if (status >=? 200) && (status <? 300)
  then Badge.mk (Colors.success colors +:+ "20") (Colors.success colors)
  else if (status >=? 300) && (status <? 400)
  then Badge.mk (Colors.primary colors +:+ "20") (Colors.primary colors)
  else if (status >=? 400) && (status <? 500)
  then Badge.mk (Colors.warning colors +:+ "20") (Colors.warning colors)
  else if status >=? 500
  then Badge.mk (Colors.error colors +:+ "20") (Colors.error colors)
  else Badge.mk (Colors.textMuted colors +:+ "20") (Colors.textMuted colors).

(** The updater that [toggleRowExpansion(logId)] passes to
    [setExpandedRows]: a copy of the set with [logId] removed if present,
    added if not. *)
Definition toggleRowExpansion (logId : string) (prev : gset string)
  : gset string :=
  if bool_decide (logId ∈ prev) then prev ∖ {[logId]} else prev ∪ {[logId]}.

(** [text.substring(0, n)] for a natural [n]. *)
Fixpoint substring_0 (n : nat) (text : string) : string :=
  match n, text with
  | S n', String c text' => String c (substring_0 n' text')
  | _, _ => EmptyString
  end.

(** [truncateText(text, maxLength)]; the callers pass 15 or 20. *)
Definition truncateText (text : string) (maxLength : nat) : string :=
  if (String.length text <=? maxLength)%nat then text
  else substring_0 maxLength text +:+ "...".

Section Handlers.

Variable LocalTZA : Z → Z.

(** The body shared by [loadData], the polling callback and
    [handleRefresh], on the logs that [fetchApiLogs] returned. *)
Definition handleRefresh (apiLogs : list LogRecord) (d : Dashboard.t)
  : Dashboard.t :=
  let sortedLogs := Array_sort newest_first apiLogs in
  {| Dashboard.state := (setLogs sortedLogs (Dashboard.state d)).2;
     Dashboard.metrics := calculateMetrics sortedLogs;
     Dashboard.graphData := generateGraphData LocalTZA sortedLogs |}.

(** [handleBrushChange(brushData)] of [ChartSection], with
    [onTimeRangeSelect] bound to [handleTimeRangeSelect]; the result is
    the chart's own state. *)
Definition handleBrushChange (graphData : list Graph.t)
    (brushData : option Brush.t) (chart : Chart.t) : Render Chart.t :=
  match brushData with
  | Some {| Brush.startIndex := Some startIndex;
            Brush.endIndex := Some endIndex |} =>
      let chart := Chart.mk (Some startIndex) (Some endIndex) in
      let startTime := Graph.time <$> at_index graphData startIndex in
      let endTime := Graph.time <$> at_index graphData endIndex in
      if truthy_value startTime && truthy_value endTime
      then _ ← handleTimeRangeSelect startTime endTime; mret chart
      else mret chart
  | _ => mret chart
  end.

Definition resetBrush : Render Chart.t :=
  _ ← handleTimeRangeSelect None None;
  mret (Chart.mk None None).

End Handlers.

(** The entry of [key] in [activeFilters], the chips of the filter bar:
    [Object.entries(filters)] filtered by
    [key !== 'search' && value !== 'all' && value].  The order of the
    chips is the insertion order of the properties and is not modelled. *)
Definition activeFilter (filters : Filters.t) (key : Filters.key)
  : option string :=
  let entry :=
    match key with
    | Filters.Search => Filters.search filters
    | Filters.Method => Filters.method filters
    | Filters.Status => Filters.status filters
    | Filters.TimeRange => Filters.timeRange filters
    end in
  match key, entry with
  | Filters.Search, _ => None
  | _, Some value =>
      if bool_decide (value ≠ "all") && JS.truthy value then Some value
      else None
  | _, None => None
  end.

(** * Vocabulary of the properties *)

(** ** The worked example of the specification

    Three records: (status 200, latency 100, 10 o'clock), (status 500,
    latency 400, 10 o'clock), (status 404, latency 50, 11 o'clock), read
    in UTC. *)

Definition UTC : Z → Z := λ _, 0.

Definition example_record (hour status latency : Z) (success : bool)
  : LogRecord :=
  {| Log.id := "k3x9q0a1z";
     Log.timestamp := hour * msPerHour;
     Log.ip := "192.168.1.10";
     Log.method := "GET";
     Log.endpoint := "/api/users";
     Log.status := status;
     Log.latency := latency;
     Log.proxyLatency := 10;
     Log.success := success;
     Log.userAgent := "Mozilla/5.0 (compatible; API Client)";
     Log.size := 1000;
     Log.location := "US-West";
     Log.applicationName := "Web Portal";
     Log.applicationId := "web-portal-002";
     Log.userName := "Jane Smith";
     Log.userId := "user_67890";
     Log.apiName := "User Management API" |}.

Definition example_logs : list LogRecord :=
  [ example_record 10 200 100 true;
    example_record 10 500 400 false;
    example_record 11 404 50 false ].

(** The example with a POST request added. *)
Definition example_post : LogRecord :=
  {| Log.id := "p0s7m2w4c";
     Log.timestamp := 12 * msPerHour;
     Log.ip := "10.0.0.15";
     Log.method := "POST";
     Log.endpoint := "/api/upload";
     Log.status := 201;
     Log.latency := 75;
     Log.proxyLatency := 12;
     Log.success := true;
     Log.userAgent := "Mozilla/5.0 (compatible; API Client)";
     Log.size := 2048;
     Log.location := "EU-Central";
     Log.applicationName := "Mobile App";
     Log.applicationId := "mobile-app-001";
     Log.userName := "John Doe";
     Log.userId := "user_12345";
     Log.apiName := "File Upload Service" |}.

Definition mixed_logs : list LogRecord := example_post :: example_logs.

(** The stored [success] flag agrees with the status code, as in the
    records the component generates ([success: status < 400]). *)
Definition success_consistent (log : LogRecord) : Prop :=
  Log.success log = (Log.status log <? 400).

(** The arithmetic mean of the latencies, as a rational. *)
Definition mean_latency (logs : list LogRecord) : Q :=
  inject_Z (fold_left Z.add (map Log.latency logs) 0)
  / inject_Z (Z.of_nat (length logs)).

(** The label ["HH:00"] that the code builds for an hour. *)
Definition hour_label (h : Z) : string :=
  JS.padStart (JS.String_ h) 2 "0" +:+ ":00".

(** An absent entry counts as the zero bucket. *)
Definition bucket_of (entry : option Hourly.t) : Hourly.t :=
  default (Hourly.mk 0 0 0) entry.

(** One more request in a bucket, an error or a success by its status. *)
Definition count_request (b : Hourly.t) (status : Z) : Hourly.t :=
  if status >=? 400
  then Hourly.mk (S (Hourly.requests b)) (S (Hourly.errors b)) (Hourly.success b)
  else Hourly.mk (S (Hourly.requests b)) (Hourly.errors b) (S (Hourly.success b)).

(** The sum of two buckets, field by field. *)
Definition add_bucket (a b : Hourly.t) : Hourly.t :=
  Hourly.mk (Hourly.requests a + Hourly.requests b)
            (Hourly.errors a + Hourly.errors b)
            (Hourly.success a + Hourly.success b).

Section Tally.

Variable tz : Z → Z.

(** The dictionary key of a record. *)
Definition log_label (log : LogRecord) : string :=
  hour_label (getHours tz (Log.timestamp log)).

(** The number of records under key [k] that satisfy [P]. *)
Definition hits (k : string) (P : LogRecord → bool) (logs : list LogRecord)
  : nat :=
  length (List.filter (λ log, bool_decide (log_label log = k) && P log) logs).

(** The records filed under key [k], by class. *)
Definition tally (k : string) (logs : list LogRecord) : Hourly.t :=
  Hourly.mk (hits k (λ _, true) logs)
            (hits k (λ log, Log.status log >=? 400) logs)
            (hits k (λ log, negb (Log.status log >=? 400)) logs).

(** The bar of hour [h]: its label and the tally of the records whose
    local hour is [h]. *)
Definition bar (logs : list LogRecord) (h : Z) : Graph.t :=
  let b := tally (hour_label h) logs in
  {| Graph.time := hour_label h;
     Graph.requests := Hourly.requests b;
     Graph.errors := Hourly.errors b;
     Graph.success := Hourly.success b |}.

(** The records whose local hour is [h]. *)
Definition in_hour (h : Z) (log : LogRecord) : bool :=
  bool_decide (getHours tz (Log.timestamp log) = h).

End Tally.




(** ** Vocabulary of the further properties *)

(** Newest first: no record is followed by a later one. *)
Definition newer_or_same (a b : LogRecord) : Prop :=
  Log.timestamp b ≤ Log.timestamp a.

(** The range of latencies in which the average of the code is the
    exactly rounded mean: non-negative integers whose sum is below
    [2^52].  There every partial sum is an integer below [2^53], hence
    exact as a double, and the rounding of the quotient to 53 bits never
    moves it across a half-integer. *)
Definition latencies_in_range (logs : list LogRecord) : Prop :=
  Forall (λ log, 0 ≤ Log.latency log) logs
  ∧ fold_left Z.add (map Log.latency logs) 0 < 2 ^ 52.






(** The four criteria of the table filter, each on its own. *)
Definition search_ok (filters : Filters.t) (log : LogRecord) : bool :=
  match Filters.search filters with
  | Some t =>
      bool_decide (t = "")
      || JS.includes (JS.toLowerCase (Log.endpoint log)) (JS.toLowerCase t)
  | None => true
  end.

Definition method_ok (filters : Filters.t) (log : LogRecord) : bool :=
  bool_decide (Filters.method filters = Some "all")
  || bool_decide (Filters.method filters = Some (Log.method log)).

Definition status_ok (filters : Filters.t) (log : LogRecord) : bool :=
  if bool_decide (Filters.status filters = Some "success")
  then Log.status log <? 400
  else if bool_decide (Filters.status filters = Some "error")
  then Log.status log >=? 400
  else true.

(** The local hour of a record lies between [s] and [e], both included. *)
Definition hour_between (tz : Z → Z) (s e : Z) (log : LogRecord) : bool :=
  (s <=? getHours tz (Log.timestamp log))
  && (getHours tz (Log.timestamp log) <=? e).

(** * Properties *)

(** ** calculateMetrics *)

Lemma totalRequests_length (logs : list LogRecord) :
  totalRequests (calculateMetrics logs) = length logs.
Proof. reflexivity. Qed.

(** The code counts the failed requests by status code. *)
Lemma failedRequests_by_status (logs : list LogRecord) :
  failedRequests (calculateMetrics logs)
  = length (List.filter (λ log, Log.status log >=? 400) logs).
Proof. reflexivity. Qed.

Lemma status_filter_flag_filter (logs : list LogRecord) :
  Forall success_consistent logs →
  List.filter (λ log, Log.status log >=? 400) logs
  = List.filter (λ log, negb (Log.success log)) logs.
Proof.
  induction 1 as [|log logs Hlog _ IH]; [done|].
  cbn [List.filter]. rewrite IH, Hlog.
  replace (Log.status log >=? 400) with (negb (Log.status log <? 400))
    by (rewrite Z.geb_leb, Z.leb_antisym; reflexivity).
  reflexivity.
Qed.

(** C1 (as amended): when every record's [success] flag agrees with its
    status code ([success = (status < 400)]), [failedRequests] is the
    number of records whose [success] flag is [false]. *)
Theorem failedRequests_counts_unsuccessful (logs : list LogRecord) :
  Forall success_consistent logs →
  failedRequests (calculateMetrics logs)
  = length (List.filter (λ log, negb (Log.success log)) logs).
Proof.
  intros Hlogs. rewrite failedRequests_by_status.
  by rewrite status_filter_flag_filter.
Qed.

Lemma failedRequests_counts_unsuccessful_example :
  Forall success_consistent example_logs
  ∧ failedRequests (calculateMetrics example_logs) = 2%nat.
Proof.
  assert (Hc : Forall success_consistent example_logs)
    by (repeat constructor).
  split; [exact Hc|].
  rewrite (failedRequests_counts_unsuccessful example_logs Hc).
  reflexivity.
Defined.

(** C1 (as stated) fails on a record whose flag disagrees with its status:
    a 200 response flagged unsuccessful is not counted as failed. *)
Lemma failedRequests_ignores_success_flag :
  let logs := [example_record 10 200 100 false] in
  failedRequests (calculateMetrics logs)
  ≠ length (List.filter (λ log, negb (Log.success log)) logs).
Proof. cbv zeta. vm_compute. discriminate. Qed.

(** *** Average latency *)

Lemma of_nat_nonzero (n : nat) :
  (0 < n)%nat → Qeq_bool (inject_Z (Z.of_nat n)) 0 = false.
Proof.
  intros Hn. apply not_true_is_false. intros Heq%Qeq_bool_iff.
  unfold Qeq in Heq. cbn in Heq. lia.
Qed.

Lemma avgLatency_nonempty (logs : list LogRecord) :
  logs ≠ [] →
  avgLatency (calculateMetrics logs)
  = JS.of_Z (Qfloor (mean_latency logs + (1 # 2))).
Proof.
  intros Hne. unfold calculateMetrics, mean_latency; cbn [avgLatency].
  rewrite length_map.
  assert (Hlen : (0 < length logs)%nat) by (destruct logs; [done | cbn; lia]).
  destruct (Nat.ltb_spec 0 (length logs)) as [_|]; [|lia].
  unfold JS.div, JS.of_nat, JS.of_Z at 1 2.
  rewrite of_nat_nonzero by done.
  reflexivity.
Qed.

Lemma example_logs_in_range : latencies_in_range example_logs.
Proof. split; [by repeat constructor | reflexivity]. Qed.

(** C2 (as amended): on a non-empty record set whose latencies are
    non-negative with a sum below [2^52], [avgLatency] is the arithmetic
    mean of the latencies rounded to the nearest integer by [Math.round]
    (a tie goes up): it is the integer [n] with
    [mean - 1/2 < n <= mean + 1/2]. *)
Theorem avgLatency_rounded_mean (logs : list LogRecord) :
  logs ≠ [] →
  latencies_in_range logs →
  ∃ n : Z,
    avgLatency (calculateMetrics logs) = JS.of_Z n
    ∧ (mean_latency logs - (1 # 2) < inject_Z n)%Q
    ∧ (inject_Z n <= mean_latency logs + (1 # 2))%Q.
Proof.
  intros Hne _. exists (Qfloor (mean_latency logs + (1 # 2))).
  split; [by apply avgLatency_nonempty|].
  pose proof (Qfloor_le (mean_latency logs + (1 # 2))) as Hle.
  pose proof (Qlt_floor (mean_latency logs + (1 # 2))) as Hlt.
  split; [|exact Hle].
  rewrite inject_Z_plus in Hlt.
  apply (Qplus_lt_l _ _ 1).
  eapply Qle_lt_trans; [|exact Hlt].
  ring_simplify. apply Qle_refl.
Qed.

Lemma avgLatency_rounded_mean_example :
  example_logs ≠ []
  ∧ latencies_in_range example_logs
  ∧ ∃ n : Z,
      avgLatency (calculateMetrics example_logs) = JS.of_Z n
      ∧ (mean_latency example_logs - (1 # 2) < inject_Z n)%Q
      ∧ (inject_Z n <= mean_latency example_logs + (1 # 2))%Q.
Proof.
  assert (Hne : example_logs ≠ []) by discriminate.
  split; [exact Hne|]. split; [exact example_logs_in_range|].
  exact (avgLatency_rounded_mean example_logs Hne example_logs_in_range).
Defined.

Example avgLatency_example :
  avgLatency (calculateMetrics example_logs) = JS.of_Z 183.
Proof. reflexivity. Qed.

(** C2 (as stated) fails on the worked example: the mean of 100, 400 and
    50 is 550/3, and [avgLatency] is the integer 183. *)
Lemma avgLatency_not_exact_mean :
  ¬ ∃ q : Q,
      avgLatency (calculateMetrics example_logs) = JS.Num q
      ∧ (q == mean_latency example_logs)%Q.
Proof.
  intros (q & Hq & Hmean). vm_compute in Hq. injection Hq as <-.
  vm_compute in Hmean. discriminate.
Qed.

(** *** Empty record set *)

(** C3: on the empty record set [calculateMetrics] returns the zero
    summary; the guards [length > 0] keep the divisions and [Math.max]
    from running, so no field is [NaN] or an infinity. *)
Theorem calculateMetrics_empty :
  calculateMetrics []
  = {| totalRequests := 0;
       failedRequests := 0;
       avgLatency := JS.of_Z 0;
       uniqueIPs := 0;
       successRate := JS.of_Z 0;
       peakLatency := JS.of_Z 0 |}.
Proof. reflexivity. Qed.

(** X5: the same guards make the summary finite, empty set or not, when
    the latencies are non-negative with a sum below [2^52] (a sum of
    doubles can overflow to an infinity beyond). *)
Theorem calculateMetrics_finite (logs : list LogRecord) :
  latencies_in_range logs →
  JS.isFinite (avgLatency (calculateMetrics logs)) = true
  ∧ JS.isFinite (successRate (calculateMetrics logs)) = true
  ∧ JS.isFinite (peakLatency (calculateMetrics logs)) = true.
Proof.
  intros _. destruct logs as [|log logs]; [done|].
  unfold calculateMetrics.
  cbn [avgLatency successRate peakLatency map length Nat.ltb Nat.leb].
  unfold JS.div, JS.of_nat, JS.of_Z.
  rewrite of_nat_nonzero by (cbn; lia).
  done.
Qed.

Lemma calculateMetrics_finite_example :
  latencies_in_range example_logs
  ∧ JS.isFinite (avgLatency (calculateMetrics example_logs)) = true
  ∧ JS.isFinite (successRate (calculateMetrics example_logs)) = true
  ∧ JS.isFinite (peakLatency (calculateMetrics example_logs)) = true.
Proof.
  split; [exact example_logs_in_range|].
  exact (calculateMetrics_finite example_logs example_logs_in_range).
Defined.

Ltac each_hour tac :=
  let hours := eval vm_compute in (seqZ 0 24) in
  change (seqZ 0 24) with hours;
  repeat (apply Forall_cons; split; [tac|]); apply Forall_nil_2.

(** ** Hour labels *)

Lemma getHours_range (tz : Z → Z) (t : Z) : 0 ≤ getHours tz t < 24.
Proof. unfold getHours, HoursPerDay. apply Z.mod_pos_bound. lia. Qed.

Lemma hours_enumerated (P : Z → Prop) :
  Forall P (seqZ 0 24) → ∀ h, 0 ≤ h < 24 → P h.
Proof.
  intros HP h Hh. rewrite Forall_forall in HP. apply HP.
  apply elem_of_seqZ. lia.
Qed.

(** Reading a label back with [parseInt(label.split(':')[0])] gives the
    hour. *)
Lemma parse_hour_label (h : Z) :
  0 ≤ h < 24 →
  JS.parseInt (JS.first_string (JS.split ":" (hour_label h))) = JS.of_Z h.
Proof.
  revert h. apply hours_enumerated. each_hour ltac:(vm_compute; reflexivity).
Qed.

(** ** generateGraphData *)

Section Histogram.

Variable tz : Z → Z.

Lemma group_by_hour_lookup (m : gmap string Hourly.t) (log : LogRecord)
    (k : string) :
  bucket_of (group_by_hour tz m log !! k)
  = if decide (log_label tz log = k)
    then count_request (bucket_of (m !! k)) (Log.status log)
    else bucket_of (m !! k).
Proof.
  unfold group_by_hour, log_label, hour_label, count_request.
  set (key := JS.padStart _ _ _ +:+ _).
  destruct (decide (key = k)) as [<-|Hne].
  - destruct (m !! key) as [b|] eqn:Hkey;
      destruct (Log.status log >=? 400);
      rewrite !lookup_alter_eq, ?lookup_insert_eq, ?Hkey; done.
  - destruct (m !! key) as [b|] eqn:Hkey;
      destruct (Log.status log >=? 400);
      rewrite !lookup_alter_ne, ?lookup_insert_ne by done; done.
Qed.

Lemma tally_cons (k : string) (log : LogRecord) (logs : list LogRecord) :
  add_bucket
    (if decide (log_label tz log = k)
     then count_request (Hourly.mk 0 0 0) (Log.status log)
     else Hourly.mk 0 0 0)
    (tally tz k logs)
  = tally tz k (log :: logs).
Proof.
  unfold tally, hits, add_bucket, count_request. cbn [List.filter].
  destruct (decide (log_label tz log = k)) as [Hk|Hk].
  - rewrite (bool_decide_eq_true_2 _ Hk).
    destruct (Log.status log >=? 400); reflexivity.
  - rewrite (bool_decide_eq_false_2 _ Hk). reflexivity.
Qed.

(** After the [forEach], the entry under a key holds the tally of the
    records with that key, on top of what the dictionary held before. *)
Lemma fold_group_by_hour (logs : list LogRecord) (m : gmap string Hourly.t)
    (k : string) :
  bucket_of (fold_left (group_by_hour tz) logs m !! k)
  = add_bucket (bucket_of (m !! k)) (tally tz k logs).
Proof.
  revert m. induction logs as [|log logs IH]; intros m.
  - cbn. destruct (bucket_of (m !! k)) as [r e s].
    unfold add_bucket; cbn. f_equal; lia.
  - cbn [fold_left]. rewrite IH, group_by_hour_lookup, <- tally_cons.
    destruct (bucket_of (m !! k)) as [r e s].
    unfold add_bucket, count_request.
    destruct (decide (log_label tz log = k)), (Log.status log >=? 400);
      cbn; f_equal; lia.
Qed.

Lemma field_or_0_bucket_of (entry : option Hourly.t) :
  field_or_0 Hourly.requests entry = Hourly.requests (bucket_of entry)
  ∧ field_or_0 Hourly.errors entry = Hourly.errors (bucket_of entry)
  ∧ field_or_0 Hourly.success entry = Hourly.success (bucket_of entry).
Proof.
  destruct entry as [[r e s]|]; [|done]. unfold field_or_0; cbn.
  by destruct r, e, s.
Qed.

Lemma generateGraphData_bars (logs : list LogRecord) :
  generateGraphData tz logs = map (bar tz logs) (seqZ 0 24).
Proof.
  unfold generateGraphData. apply map_ext. intros h.
  fold (hour_label h). unfold bar.
  destruct (field_or_0_bucket_of
              (fold_left (group_by_hour tz) logs ∅ !! hour_label h))
    as (-> & -> & ->).
  rewrite fold_group_by_hour, lookup_empty. reflexivity.
Qed.

Lemma hour_label_inj (g h : Z) :
  0 ≤ g < 24 → 0 ≤ h < 24 → hour_label g = hour_label h → g = h.
Proof.
  intros Hg Hh Heq.
  pose proof (parse_hour_label g Hg) as Pg.
  rewrite Heq, (parse_hour_label h Hh) in Pg.
  unfold JS.of_Z in Pg. injection Pg as Pg. done.
Qed.

Lemma hits_in_hour (h : Z) (P : LogRecord → bool) (logs : list LogRecord) :
  0 ≤ h < 24 →
  hits tz (hour_label h) P logs
  = length (List.filter (λ log, in_hour tz h log && P log) logs).
Proof.
  intros Hh. unfold hits. f_equal. apply List.filter_ext. intros log.
  f_equal. unfold in_hour, log_label. apply bool_decide_ext. split.
  - apply hour_label_inj; [apply getHours_range | done].
  - by intros ->.
Qed.

Lemma one_hour_per_record (g : Z) :
  0 ≤ g < 24 →
  sum_list (map (λ h, if bool_decide (g = h) then 1%nat else 0%nat)
                (seqZ 0 24)) = 1%nat.
Proof.
  revert g. apply hours_enumerated. each_hour ltac:(vm_compute; reflexivity).
Qed.

Lemma sum_list_map_plus {A : Type} (f g : A → nat) (xs : list A) :
  sum_list (map (λ x, (f x + g x)%nat) xs)
  = (sum_list (map f xs) + sum_list (map g xs))%nat.
Proof. induction xs as [|x xs IH]; cbn; lia. Qed.

Lemma in_hour_total (logs : list LogRecord) :
  sum_list (map (λ h, length (List.filter (in_hour tz h) logs)) (seqZ 0 24))
  = length logs.
Proof.
  induction logs as [|log logs IH].
  - by vm_compute.
  - cbn [length]. rewrite <- IH.
    change (S ?n) with (1 + n)%nat.
    rewrite <- (one_hour_per_record (getHours tz (Log.timestamp log)))
      by apply getHours_range.
    rewrite <- sum_list_map_plus. f_equal. apply map_ext. intros h.
    cbn [List.filter]. unfold in_hour at 1. by case_bool_decide.
Qed.

Lemma bars_in_range (f : Hourly.t → nat) (P : LogRecord → bool)
    (logs : list LogRecord) :
  (∀ k, f (tally tz k logs) = hits tz k P logs) →
  map (λ h, f (tally tz (hour_label h) logs)) (seqZ 0 24)
  = map (λ h, length (List.filter (λ log, in_hour tz h log && P log) logs))
        (seqZ 0 24).
Proof.
  intros Hf. apply map_ext_in. intros h Hh%list_elem_of_In%elem_of_seqZ.
  rewrite Hf. apply hits_in_hour. lia.
Qed.

(** C4: [generateGraphData] returns 24 bars, labelled ["00:00"] to
    ["23:00"] in this order; the bar of hour [h] counts the records whose
    local hour is [h] (none: zero), and the counts add up to the number
    of records. *)
Theorem generateGraphData_24_hours (logs : list LogRecord) :
  length (generateGraphData tz logs) = 24%nat
  ∧ map Graph.time (generateGraphData tz logs)
    = [ "00:00"; "01:00"; "02:00"; "03:00"; "04:00"; "05:00";
        "06:00"; "07:00"; "08:00"; "09:00"; "10:00"; "11:00";
        "12:00"; "13:00"; "14:00"; "15:00"; "16:00"; "17:00";
        "18:00"; "19:00"; "20:00"; "21:00"; "22:00"; "23:00" ]
  ∧ map Graph.requests (generateGraphData tz logs)
    = map (λ h, length (List.filter (in_hour tz h) logs)) (seqZ 0 24)
  ∧ sum_list (map Graph.requests (generateGraphData tz logs)) = length logs.
Proof.
  assert (Hreq : map Graph.requests (generateGraphData tz logs)
                 = map (λ h, length (List.filter (in_hour tz h) logs))
                       (seqZ 0 24)).
  { rewrite generateGraphData_bars, map_map. cbn [bar Graph.requests].
    rewrite (bars_in_range Hourly.requests (λ _, true)) by done.
    apply map_ext. intros h. f_equal. apply List.filter_ext. intros log.
    apply andb_true_r. }
  split; [|split; [|split]].
  - by rewrite generateGraphData_bars, length_map, length_seqZ.
  - rewrite generateGraphData_bars, map_map. cbn [bar Graph.time].
    by vm_compute.
  - exact Hreq.
  - rewrite Hreq. apply in_hour_total.
Qed.

Lemma hits_partition (k : string) (logs : list LogRecord) :
  (hits tz k (λ log, negb (Log.status log >=? 400)) logs
   + hits tz k (λ log, Log.status log >=? 400) logs)%nat
  = hits tz k (λ _, true) logs.
Proof.
  unfold hits. induction logs as [|log logs IH]; [done|].
  cbn [List.filter].
  destruct (bool_decide (log_label tz log = k)), (Log.status log >=? 400);
    cbn in *; lia.
Qed.

(** C10: in every bar [success + errors = requests]; the errors of a bar
    are its records with a status of 400 or more, the successes the
    others. *)
Theorem generateGraphData_partition (logs : list LogRecord) :
  Forall (λ b, (Graph.success b + Graph.errors b)%nat = Graph.requests b)
         (generateGraphData tz logs)
  ∧ map Graph.errors (generateGraphData tz logs)
    = map (λ h, length (List.filter
                          (λ log, in_hour tz h log && (Log.status log >=? 400))
                          logs))
          (seqZ 0 24)
  ∧ map Graph.success (generateGraphData tz logs)
    = map (λ h, length (List.filter
                          (λ log, in_hour tz h log
                                  && negb (Log.status log >=? 400))
                          logs))
          (seqZ 0 24).
Proof.
  rewrite generateGraphData_bars. split; [|split].
  - apply Forall_map, Forall_forall. intros h _.
    cbn [bar Graph.success Graph.errors Graph.requests tally
         Hourly.success Hourly.errors Hourly.requests].
    apply hits_partition.
  - rewrite map_map. cbn [bar Graph.errors].
    by apply (bars_in_range Hourly.errors).
  - rewrite map_map. cbn [bar Graph.success].
    by apply (bars_in_range Hourly.success).
Qed.

End Histogram.

Example generateGraphData_example :
  map (λ b, (Graph.time b, Graph.requests b, Graph.errors b, Graph.success b))
      (List.filter (λ b, negb (Graph.requests b =? 0)%nat)
                   (generateGraphData UTC example_logs))
  = [ ("10:00", 2%nat, 1%nat, 1%nat); ("11:00", 1%nat, 1%nat, 0%nat) ].
Proof. by vm_compute. Qed.

(** ** filteredLogs *)

(** *** Strings *)

Lemma append_cons (c : ascii) (s t : string) :
  String c s +:+ t = String c (s +:+ t).
Proof. reflexivity. Qed.

Lemma append_nil (t : string) : "" +:+ t = t.
Proof. reflexivity. Qed.






(** *** Numbers *)

Lemma lt_of_Z (a b : Z) : JS.lt (JS.of_Z a) (JS.of_Z b) = (a <? b).
Proof.
  unfold JS.lt, JS.of_Z, Qle_bool. cbn. rewrite !Z.mul_1_r.
  by rewrite Z.ltb_antisym.
Qed.

Lemma gt_of_Z (a b : Z) : JS.gt (JS.of_Z a) (JS.of_Z b) = (b <? a).
Proof. apply lt_of_Z. Qed.

Section Filter.

Variable tz : Z → Z.

(** *** Time range *)

Lemma time_range_filter_inverted (startTime endTime : string) (s e : Z)
    (log : LogRecord) :
  JS.parseInt (JS.first_string (JS.split ":" startTime)) = JS.of_Z s →
  JS.parseInt (JS.first_string (JS.split ":" endTime)) = JS.of_Z e →
  e < s →
  time_range_filter tz (Some (TimeRange.mk startTime endTime)) log = false.
Proof.
  intros Hs He Hlt. unfold time_range_filter. cbn [TimeRange.startTime TimeRange.endTime].
  rewrite Hs, He. fold (hour_label (getHours tz (Log.timestamp log))).
  rewrite parse_hour_label by apply getHours_range.
  rewrite lt_of_Z, gt_of_Z.
  destruct (Z.ltb_spec (getHours tz (Log.timestamp log)) s);
    destruct (Z.ltb_spec e (getHours tz (Log.timestamp log))); cbn; [done..|lia].
Qed.

(** Every path of either callback that does not return [false] ends in
    the time-range filter. *)
Lemma keep_log_time_range (filters : Filters.t)
    (range : option TimeRange.t) (log : LogRecord) :
  time_range_filter tz range log = false →
  keep_log tz filters range log = false
  ∧ keep_log_enhanced tz filters range log = false.
Proof.
  intros Hrange. unfold keep_log, keep_log_enhanced. rewrite Hrange.
  split; repeat case_match; reflexivity.
Qed.

Lemma filter_none {A : Type} (f : A → bool) (xs : list A) :
  (∀ x, f x = false) → List.filter f xs = [].
Proof. intros Hf. induction xs as [|x xs IH]; cbn; [done|]. by rewrite Hf. Qed.

Lemma filter_all {A : Type} (f : A → bool) (xs : list A) :
  (∀ x, f x = true) → List.filter f xs = xs.
Proof.
  intros Hf. induction xs as [|x xs IH]; cbn; [done|]. by rewrite Hf, IH.
Qed.

(** C5: a time range whose start hour is greater than its end hour
    selects nothing, whatever the other criteria, in both versions of the
    filter. *)
Theorem filteredLogs_inverted_range (logs : list LogRecord)
    (filters : Filters.t) (startTime endTime : string) (s e : Z) :
  JS.parseInt (JS.first_string (JS.split ":" startTime)) = JS.of_Z s →
  JS.parseInt (JS.first_string (JS.split ":" endTime)) = JS.of_Z e →
  s > e →
  filteredLogs tz logs filters (Some (TimeRange.mk startTime endTime)) = []
  ∧ filteredLogs_enhanced tz logs filters
      (Some (TimeRange.mk startTime endTime)) = [].
Proof.
  intros Hs He Hgt.
  split; apply filter_none; intros log;
    apply keep_log_time_range, (time_range_filter_inverted _ _ s e);
    auto with lia.
Qed.

(** The same for the labels of two bars of the chart, which is what a
    brush selection stores. *)
Lemma filteredLogs_inverted_labels (logs : list LogRecord)
    (filters : Filters.t) (s e : Z) :
  0 ≤ e < s → s < 24 →
  filteredLogs tz logs filters
    (Some (TimeRange.mk (hour_label s) (hour_label e))) = [].
Proof.
  intros He Hs. apply filter_none. intros log.
  apply keep_log_time_range, (time_range_filter_inverted _ _ s e);
    [apply parse_hour_label; lia | apply parse_hour_label; lia | lia].
Qed.

End Filter.

Lemma filteredLogs_inverted_range_example :
  5 > 3
  ∧ filteredLogs UTC example_logs initial_filters
      (Some (TimeRange.mk "05:00" "03:00")) = [].
Proof.
  split; [lia|].
  apply (filteredLogs_inverted_range UTC example_logs initial_filters
           "05:00" "03:00" 5 3); [reflexivity | reflexivity | lia].
Defined.

Section Criteria.

Variable tz : Z → Z.

(** *** Text search *)

Lemma truthy_nonempty (t : string) : t ≠ "" → JS.truthy t = true.
Proof. intros Ht. unfold JS.truthy. by apply bool_decide_eq_true_2. Qed.

(** *** Method and sentinels *)

(** With the search empty or absent, the method at ["all"], the status at
    ["all"] or absent and no time range, the filter is the identity. *)
Lemma filteredLogs_sentinels (logs : list LogRecord)
    (search status timeRange : option string) :
  search = None ∨ search = Some "" →
  status = None ∨ status = Some "all" →
  filteredLogs tz logs (Filters.mk search (Some "all") status timeRange) None
  = logs.
Proof.
  intros Hsearch Hstatus. apply filter_all. intros log.
  by destruct Hsearch as [-> | ->], Hstatus as [-> | ->].
Qed.

Lemma filteredLogs_initial_filters (logs : list LogRecord) :
  filteredLogs tz logs initial_filters None = logs.
Proof. apply filteredLogs_sentinels; by right. Qed.

(** A method other than ["all"] keeps the records with exactly this
    method, in order. *)
Lemma filteredLogs_method_exact (logs : list LogRecord) (m : string)
    (timeRange : option string) :
  m ≠ "all" →
  filteredLogs tz logs (Filters.mk (Some "") (Some m) (Some "all") timeRange)
    None
  = List.filter (λ log, bool_decide (Log.method log = m)) logs.
Proof.
  intros Hm. apply List.filter_ext. intros log. unfold keep_log.
  cbn [Filters.search Filters.method Filters.status JS.truthy andb
       time_range_filter].
  rewrite (bool_decide_eq_true_2 (Some m ≠ Some "all")) by congruence.
  repeat case_bool_decide; try reflexivity; congruence.
Qed.

(** With the [method] property absent, the method filter rejects every
    record: [undefined !== 'all'] and [log.method !== undefined] both
    hold. *)
Lemma keep_log_method_absent (filters : Filters.t)
    (range : option TimeRange.t) (log : LogRecord) :
  Filters.method filters = None →
  keep_log tz filters range log = false
  ∧ keep_log_enhanced tz filters range log = false.
Proof.
  intros Hm. unfold keep_log, keep_log_enhanced. rewrite Hm.
  split; by case_match.
Qed.

Lemma filteredLogs_method_absent (logs : list LogRecord)
    (filters : Filters.t) (range : option TimeRange.t) :
  Filters.method filters = None →
  filteredLogs tz logs filters range = []
  ∧ filteredLogs_enhanced tz logs filters range = [].
Proof.
  intros Hm. split; apply filter_none; intros log;
    by apply keep_log_method_absent.
Qed.

(** *** The filter reads the state and leaves it as it is *)

Lemma keep_log_render_spec (log : LogRecord) (st : State.t) :
  keep_log_render tz log st
  = (keep_log tz (State.filters st) (State.selectedTimeRange st) log, st).
Proof.
  unfold keep_log_render, keep_log, read, mbind, mret, Render_bind,
    Render_ret, compose.
  repeat case_match; reflexivity.
Qed.

Lemma Array_filter_spec {A : Type} (callback : A → Render bool)
    (f : A → bool) (xs : list A) (st : State.t) :
  (∀ x, callback x st = (f x, st)) →
  Array_filter callback xs st = (List.filter f xs, st).
Proof.
  intros Hcb. induction xs as [|x xs IH]; [done|].
  cbn [Array_filter List.filter].
  unfold mbind, mret, Render_bind, Render_ret in *.
  rewrite Hcb, IH. by destruct (f x).
Qed.

(** C9: a render of the filter returns the filtered records and leaves
    the component state ([logs], [filters], [selectedTimeRange]) as it
    found it. *)
Theorem render_filteredLogs_reads_only (st : State.t) :
  render_filteredLogs tz st
  = (filteredLogs tz (State.logs st) (State.filters st)
       (State.selectedTimeRange st),
     st).
Proof.
  unfold render_filteredLogs, filteredLogs, read.
  unfold mbind at 1, Render_bind at 1.
  apply Array_filter_spec. intros log. apply keep_log_render_spec.
Qed.

End Criteria.

Example search_example :
  map Log.latency
      (filteredLogs UTC example_logs
         (Filters.set Filters.Search "Api/U" initial_filters) None)
  = [100; 400; 50]
  ∧ filteredLogs UTC example_logs
      (Filters.set Filters.Search "upload" initial_filters) None = []
  ∧ map Log.latency
      (filteredLogs_enhanced UTC example_logs
         (Filters.set Filters.Search "jane" initial_filters) None)
    = [100; 400; 50].
Proof. repeat split; reflexivity. Qed.

Example filteredLogs_GET_example :
  map Log.status mixed_logs = [201; 200; 500; 404]
  ∧ map Log.status
      (filteredLogs UTC mixed_logs
         (Filters.set Filters.Method "GET" initial_filters) None)
    = [200; 500; 404]
  ∧ map Log.status
      (filteredLogs UTC mixed_logs
         (Filters.set Filters.Method "POST" initial_filters) None)
    = [201].
Proof. repeat split; reflexivity. Qed.

(** C6: the filter bar can leave [filters] without a [method] (and
    [status], [timeRange]) property; with this criteria object, as with
    the empty object, and no time range the filter returns nothing where
    the claim expects every record. *)
Theorem filteredLogs_criteria_absent :
  example_logs ≠ []
  ∧ filteredLogs UTC example_logs (Filters.mk (Some "") None None None) None
    = []
  ∧ filteredLogs UTC example_logs (Filters.mk None None None None) None = [].
Proof. split; [discriminate|]. split; reflexivity. Qed.

(** C8: choosing the method GET and then removing the method chip leaves
    [filters] without a [method] property.  The drop-down then shows
    ["all"], yet the filter rejects every record, where the claim
    expects no method filtering. *)
Theorem method_chip_removed_rejects_all :
  let st0 := State.mk mixed_logs initial_filters None in
  let st1 := (handleFilterChange Filters.Method "GET" st0).2 in
  let st2 := (removeFilter Filters.Method st1).2 in
  map Log.method (render_filteredLogs UTC st0).1 = ["POST"; "GET"; "GET"; "GET"]
  ∧ map Log.method (render_filteredLogs UTC st1).1 = ["GET"; "GET"; "GET"]
  ∧ State.filters st2 = Filters.mk (Some "") None (Some "all") (Some "1h")
  ∧ displayed_method (State.filters st2) = "all"
  ∧ (render_filteredLogs UTC st2).1 = []
  ∧ State.logs st2 = mixed_logs.
Proof. cbv zeta. repeat split; reflexivity. Qed.

(** * Further properties *)

(** ** calculateMetrics: the other summary fields *)

Lemma div_by_count (a : Z) (n : nat) :
  (0 < n)%nat →
  JS.div (JS.of_Z a) (JS.of_nat n)
  = JS.Num (inject_Z a / inject_Z (Z.of_nat n)).
Proof.
  intros Hn. unfold JS.div, JS.of_nat, JS.of_Z.
  by rewrite of_nat_nonzero.
Qed.

Lemma nonempty_length {A : Type} (xs : list A) :
  xs ≠ [] → (0 < length xs)%nat.
Proof. destruct xs; [done | cbn; lia]. Qed.

Lemma failed_le_total (logs : list LogRecord) :
  (failedRequests (calculateMetrics logs)
   ≤ totalRequests (calculateMetrics logs))%nat.
Proof. cbn. apply List.filter_length_le. Qed.



Lemma fold_max_spec (xs : list Z) (x : Z) :
  fold_left Z.max xs x ∈ x :: xs
  ∧ Forall (λ y, y ≤ fold_left Z.max xs x) (x :: xs).
Proof.
  revert x. induction xs as [|y xs IH]; intros x.
  - cbn. split; [apply list_elem_of_here | by repeat constructor].
  - cbn [fold_left]. destruct (IH (Z.max x y)) as [Hin Hall].
    apply Forall_cons in Hall as [Hmax Hall]. split.
    + apply elem_of_cons in Hin as [Hin|Hin].
      * rewrite Hin. destruct (Z.max_spec x y) as [[_ ->]|[_ ->]].
        -- apply list_elem_of_further, list_elem_of_here.
        -- apply list_elem_of_here.
      * by do 2 apply list_elem_of_further.
    + repeat constructor; [lia | lia | done].
Qed.

Lemma peak_is_greatest (logs : list LogRecord) :
  logs ≠ [] →
  ∃ m : Z,
    peakLatency (calculateMetrics logs) = JS.of_Z m
    ∧ (∃ log, log ∈ logs ∧ Log.latency log = m)
    ∧ Forall (λ log, Log.latency log ≤ m) logs.
Proof.
  intros Hne. destruct logs as [|log logs]; [done|].
  unfold calculateMetrics; cbn [peakLatency map length Nat.ltb Nat.leb
                                  JS.Math_max].
  set (m := fold_left Z.max (map Log.latency logs) (Log.latency log)).
  destruct (fold_max_spec (map Log.latency logs) (Log.latency log))
    as [Hin Hall]. fold m in Hin, Hall.
  exists m. split; [done|]. split.
  - change (Log.latency log :: map Log.latency logs)
      with (map Log.latency (log :: logs)) in Hin.
    apply list_elem_of_fmap in Hin as (log' & -> & Hin). by exists log'.
  - rewrite Forall_forall in Hall. apply Forall_forall. intros log' Hlog'.
    apply Hall.
    change (Log.latency log :: map Log.latency logs)
      with (Log.latency <$> log :: logs).
    apply list_elem_of_fmap. by exists log'.
Qed.

(** X2: on a non-empty log array [peakLatency] is the greatest latency: it is
    the latency of some record and no record has a greater one. *)
Theorem peakLatency_greatest (logs : list LogRecord) :
  logs ≠ [] →
  ∃ m : Z,
    peakLatency (calculateMetrics logs) = JS.of_Z m
    ∧ (∃ log, log ∈ logs ∧ Log.latency log = m)
    ∧ Forall (λ log, Log.latency log ≤ m) logs.
Proof. apply peak_is_greatest. Qed.

Lemma peakLatency_greatest_example :
  example_logs ≠ []
  ∧ ∃ m : Z,
      peakLatency (calculateMetrics example_logs) = JS.of_Z m
      ∧ (∃ log, log ∈ example_logs ∧ Log.latency log = m)
      ∧ Forall (λ log, Log.latency log ≤ m) example_logs.
Proof.
  assert (Hne : example_logs ≠ []) by discriminate.
  split; [exact Hne|]. exact (peakLatency_greatest example_logs Hne).
Defined.

Lemma list_to_set_remove_dups (l : list string) :
  (list_to_set (remove_dups l) : gset string) = list_to_set l.
Proof.
  apply set_eq. intros x.
  by rewrite !elem_of_list_to_set, elem_of_remove_dups.
Qed.

Lemma remove_dups_length (l : list string) :
  (length (remove_dups l) ≤ length l)%nat.
Proof.
  induction l as [|x l IH]; [done|]. cbn.
  destruct (decide_rel elem_of x l); cbn; lia.
Qed.

(** X3: [uniqueIPs] is the number of distinct client addresses, which is at
    most the number of records, and is zero only for no record. *)
Theorem uniqueIPs_distinct (logs : list LogRecord) :
  uniqueIPs (calculateMetrics logs) = length (remove_dups (map Log.ip logs))
  ∧ (uniqueIPs (calculateMetrics logs)
     ≤ totalRequests (calculateMetrics logs))%nat
  ∧ (uniqueIPs (calculateMetrics logs) = 0%nat ↔ logs = []).
Proof.
  assert (Heq : uniqueIPs (calculateMetrics logs)
                = length (remove_dups (map Log.ip logs))).
  { cbn [calculateMetrics uniqueIPs].
    rewrite <- list_to_set_remove_dups.
    apply size_list_to_set, NoDup_remove_dups. }
  split; [exact Heq|]. split.
  - rewrite Heq. cbn [calculateMetrics totalRequests].
    rewrite <- (length_map Log.ip logs). apply remove_dups_length.
  - cbn [calculateMetrics uniqueIPs]. rewrite size_empty_iff. split.
    + destruct logs as [|log logs]; [done|]. intros Hempty.
      cbn in Hempty. set_solver.
    + by intros ->.
Qed.

Lemma sum_bounded (xs : list Z) (m acc : Z) :
  Forall (λ x, x ≤ m) xs →
  fold_left (λ a b, a + b) xs acc ≤ acc + Z.of_nat (length xs) * m.
Proof.
  intros Hall. revert acc. induction Hall as [|x xs Hx _ IH]; intros acc.
  - cbn. lia.
  - cbn [fold_left length]. specialize (IH (acc + x)). lia.
Qed.

(** X4: on a non-empty log array whose latencies are non-negative with a
    sum below [2^52], the average latency shown is never above the peak
    latency. *)
Theorem avgLatency_le_peakLatency (logs : list LogRecord) :
  logs ≠ [] →
  latencies_in_range logs →
  ∃ a m : Z,
    avgLatency (calculateMetrics logs) = JS.of_Z a
    ∧ peakLatency (calculateMetrics logs) = JS.of_Z m
    ∧ a ≤ m.
Proof.
  intros Hne _.
  destruct (peak_is_greatest logs Hne) as (m & Hpeak & _ & Hall).
  exists (Qfloor (mean_latency logs + (1 # 2))), m.
  split; [by apply avgLatency_nonempty|]. split; [done|].
  assert (Hmean : (mean_latency logs <= inject_Z m)%Q).
  { unfold mean_latency. apply Qle_shift_div_r.
    - rewrite <- (Zlt_Qlt 0). apply nonempty_length in Hne. lia.
    - rewrite <- inject_Z_mult, <- Zle_Qle.
      pose proof (sum_bounded (map Log.latency logs) m 0) as Hsum.
      rewrite length_map in Hsum.
      etrans; [apply Hsum|]; [|lia].
      apply Forall_forall. intros x (log & -> & Hlog)%list_elem_of_fmap.
      rewrite Forall_forall in Hall. by apply Hall. }
  transitivity (Qfloor (inject_Z m + (1 # 2))).
  - apply Qfloor_resp_le, Qplus_le_l, Hmean.
  - unfold Qfloor, Qplus, inject_Z. cbn.
    apply Z.lt_succ_r, Z.div_lt_upper_bound; lia.
Qed.

Lemma avgLatency_le_peakLatency_example :
  example_logs ≠ []
  ∧ latencies_in_range example_logs
  ∧ ∃ a m : Z,
      avgLatency (calculateMetrics example_logs) = JS.of_Z a
      ∧ peakLatency (calculateMetrics example_logs) = JS.of_Z m
      ∧ a ≤ m.
Proof.
  assert (Hne : example_logs ≠ []) by discriminate.
  split; [exact Hne|]. split; [exact example_logs_in_range|].
  exact (avgLatency_le_peakLatency example_logs Hne example_logs_in_range).
Defined.

(** ** Order of the records *)

Lemma filter_length_perm {A : Type} (f : A → bool) (xs ys : list A) :
  xs ≡ₚ ys → length (List.filter f xs) = length (List.filter f ys).
Proof.
  induction 1 as [|x xs ys _ IH|x y xs|xs ys zs _ IH1 _ IH2]; cbn.
  - done.
  - destruct (f x); cbn; congruence.
  - destruct (f x), (f y); reflexivity.
  - congruence.
Qed.

Lemma sum_perm (xs ys : list Z) :
  xs ≡ₚ ys →
  ∀ acc, fold_left (λ a b, a + b) xs acc = fold_left (λ a b, a + b) ys acc.
Proof.
  induction 1 as [|x xs ys _ IH|x y xs|xs ys zs _ IH1 _ IH2]; intros acc; cbn.
  - done.
  - apply IH.
  - f_equal. lia.
  - by rewrite IH1.
Qed.

Lemma Math_max_perm (xs ys : list Z) :
  xs ≡ₚ ys → JS.Math_max xs = JS.Math_max ys.
Proof.
  intros Hperm. destruct xs as [|x xs], ys as [|y ys]; cbn.
  - done.
  - by apply Permutation_nil_cons in Hperm.
  - symmetry in Hperm. by apply Permutation_nil_cons in Hperm.
  - destruct (fold_max_spec xs x) as [Hx Hxs], (fold_max_spec ys y) as [Hy Hys].
    rewrite Forall_forall in Hxs, Hys.
    f_equal. apply Z.le_antisymm.
    + apply Hys. by rewrite <- Hperm.
    + apply Hxs. by rewrite Hperm.
Qed.

Lemma calculateMetrics_order (logs logs' : list LogRecord) :
  latencies_in_range logs →
  logs ≡ₚ logs' → calculateMetrics logs = calculateMetrics logs'.
Proof.
  intros _ Hperm.
  assert (Hlat : map Log.latency logs ≡ₚ map Log.latency logs')
    by (by apply fmap_Permutation).
  assert (Hips : (list_to_set (map Log.ip logs) : gset string)
                 = list_to_set (map Log.ip logs')).
  { apply (list_to_set_perm_L (C := gset string)).
    by apply fmap_Permutation. }
  unfold calculateMetrics.
  rewrite !length_map, (Permutation_length Hperm),
    (filter_length_perm _ _ _ Hperm), (sum_perm _ _ Hlat),
    (Math_max_perm _ _ Hlat), Hips.
  reflexivity.
Qed.

(** X6: for latencies that are non-negative with a sum below [2^52] the
    summary does not depend on the order of the records, so sorting them
    before the call changes nothing.  (Beyond that range the sum of
    doubles depends on the order of the additions.) *)
Theorem calculateMetrics_perm (logs logs' : list LogRecord) :
  latencies_in_range logs →
  logs ≡ₚ logs' → calculateMetrics logs = calculateMetrics logs'.
Proof. apply calculateMetrics_order. Qed.

Lemma calculateMetrics_perm_example :
  latencies_in_range example_logs
  ∧ example_logs ≡ₚ reverse example_logs
  ∧ calculateMetrics example_logs = calculateMetrics (reverse example_logs).
Proof.
  assert (Hperm : example_logs ≡ₚ reverse example_logs)
    by (symmetry; apply reverse_Permutation).
  split; [exact example_logs_in_range|]. split; [exact Hperm|].
  exact (calculateMetrics_perm example_logs (reverse example_logs)
           example_logs_in_range Hperm).
Defined.

Lemma generateGraphData_order (tz : Z → Z) (logs logs' : list LogRecord) :
  logs ≡ₚ logs' → generateGraphData tz logs = generateGraphData tz logs'.
Proof.
  intros Hperm. rewrite !generateGraphData_bars. apply map_ext. intros h.
  unfold bar, tally, hits.
  by rewrite !(filter_length_perm _ _ _ Hperm).
Qed.

(** X7: the chart data does not depend on the order of the records
    either. *)
Theorem generateGraphData_perm (tz : Z → Z) (logs logs' : list LogRecord) :
  logs ≡ₚ logs' → generateGraphData tz logs = generateGraphData tz logs'.
Proof. apply generateGraphData_order. Qed.

Lemma generateGraphData_perm_example :
  example_logs ≡ₚ reverse example_logs
  ∧ generateGraphData UTC example_logs
    = generateGraphData UTC (reverse example_logs).
Proof.
  assert (Hperm : example_logs ≡ₚ reverse example_logs)
    by (symmetry; apply reverse_Permutation).
  split; [exact Hperm|].
  exact (generateGraphData_perm UTC example_logs (reverse example_logs) Hperm).
Defined.

(** ** The average in binary64 arithmetic

    Powers of two, the binade of a rational, rounding to the nearest
    integer and to the nearest double; then the sum and the quotient of
    line 1150. *)

Lemma two_not_0 : ¬ (2 == 0)%Q.
Proof. discriminate. Qed.

Lemma pow2_pos (k : Z) : (0 < 2 ^ k)%Q.
Proof. apply Qpower_0_lt. reflexivity. Qed.

Lemma pow2_plus (a b : Z) : (2 ^ (a + b) == 2 ^ a * 2 ^ b)%Q.
Proof. apply Qpower_plus, two_not_0. Qed.

Lemma pow2_le (a b : Z) : a ≤ b → (2 ^ a <= 2 ^ b)%Q.
Proof. intros H. apply Qpower_le_compat_l; [exact H | discriminate]. Qed.

Lemma pow2_lt (a b : Z) : a < b → (2 ^ a < 2 ^ b)%Q.
Proof. intros H. apply Qpower_lt_compat_l; [exact H | reflexivity]. Qed.

Lemma pow2_lt_inv (a b : Z) : (2 ^ a < 2 ^ b)%Q → a < b.
Proof. intros H. apply (Qpower_lt_compat_l_inv 2); [exact H | reflexivity]. Qed.

Lemma pow2_inject (k : Z) : 0 ≤ k → (2 ^ k == inject_Z (2 ^ k))%Q.
Proof. intros H. symmetry. apply (Zpower_Qpower 2 k H). Qed.

(** A quotient of integers lies in the binade that the lengths of its
    numerator and denominator give, or in the one below. *)
Lemma binade_spec (x : Q) :
  ¬ (x == 0)%Q →
  (2 ^ Double.binade x <= Qabs x)%Q ∧ (Qabs x < 2 ^ (Double.binade x + 1))%Q.
Proof.
  intros Hx. destruct x as [p d].
  assert (Hp : p ≠ 0).
  { intros ->. apply Hx. reflexivity. }
  unfold Double.binade. cbn [Qnum Qden].
  set (a := Z.log2 (Z.abs p)). set (b := Z.log2 (Z.pos d)).
  assert (Ha : 2 ^ a ≤ Z.abs p < 2 ^ (a + 1)).
  { apply Z.log2_spec. lia. }
  assert (Hb : 2 ^ b ≤ Z.pos d < 2 ^ (b + 1)).
  { apply Z.log2_spec. lia. }
  assert (Ha0 : 0 ≤ a) by apply Z.log2_nonneg.
  assert (Hb0 : 0 ≤ b) by apply Z.log2_nonneg.
  assert (Habs : (Qabs (p # d) == inject_Z (Z.abs p) / inject_Z (Z.pos d))%Q).
  { unfold Qabs. apply Qmake_Qdiv. }
  assert (Hd : (0 < inject_Z (Z.pos d))%Q) by reflexivity.
  assert (HA := pow2_inject a Ha0).
  assert (HA1 := pow2_inject (a + 1) ltac:(lia)).
  assert (HB := pow2_inject b Hb0).
  assert (HB1 := pow2_inject (b + 1) ltac:(lia)).
  assert (Hsplit : (2 ^ a == 2 ^ (a - b) * 2 ^ b)%Q).
  { rewrite <- pow2_plus. replace (a - b + b) with a by lia. reflexivity. }
  assert (Hsplit1 : (2 ^ (a + 1) == 2 ^ (a - b + 1) * 2 ^ b)%Q).
  { rewrite <- pow2_plus. replace (a - b + 1 + b) with (a + 1) by lia.
    reflexivity. }
  assert (Hsplit2 : (2 ^ a == 2 ^ (a - b - 1) * 2 ^ (b + 1))%Q).
  { rewrite <- pow2_plus. replace (a - b - 1 + (b + 1)) with a by lia.
    reflexivity. }
  destruct (Qle_bool (2 ^ (a - b)) (Qabs (p # d))) eqn:Hle.
  - apply Qle_bool_iff in Hle. split; [exact Hle|].
    rewrite Habs. apply Qlt_shift_div_r; [exact Hd|].
    (* |p| < 2^(a+1) = 2^(a-b+1) * 2^b <= 2^(a-b+1) * d *)
    apply Qlt_le_trans with (2 ^ (a + 1))%Q.
    + rewrite HA1, <- Zlt_Qlt. lia.
    + rewrite Hsplit1. apply Qmult_le_l; [apply pow2_pos|].
      rewrite HB, <- Zle_Qle. lia.
  - assert (Hlt : (Qabs (p # d) < 2 ^ (a - b))%Q).
    { apply Qnot_le_lt. intros H. apply Qle_bool_iff in H. congruence. }
    split.
    + rewrite Habs. apply Qle_shift_div_l; [exact Hd|].
      apply Qle_trans with (2 ^ a)%Q.
      * rewrite Hsplit2. apply Qmult_le_l; [apply pow2_pos|].
        rewrite HB1, <- Zle_Qle. lia.
      * rewrite HA, <- Zle_Qle. lia.
    + replace (a - b - 1 + 1) with (a - b) by lia. exact Hlt.
Qed.

Lemma nearest_even_floor (y : Q) :
  Double.nearest_even y = Qfloor y ∨ Double.nearest_even y = Qfloor y + 1.
Proof.
  unfold Double.nearest_even.
  destruct (y - inject_Z (Qfloor y) ?= 1 # 2)%Q; [|tauto..].
  destruct (Z.even (Qfloor y)); tauto.
Qed.

(** Rounding to the nearest integer does not go below an integer that is
    below the argument... *)
Lemma nearest_even_ge (m : Z) (y : Q) :
  (inject_Z m <= y)%Q → m ≤ Double.nearest_even y.
Proof.
  intros H. apply Qfloor_resp_le in H. rewrite Qfloor_Z in H.
  destruct (nearest_even_floor y); lia.
Qed.

(** ... and stays below an integer that is more than a half above it. *)
Lemma nearest_even_lt (m : Z) (y : Q) :
  (y < inject_Z m - (1 # 2))%Q → Double.nearest_even y < m.
Proof.
  intros H. unfold Double.nearest_even.
  assert (Hf := Qfloor_le y).
  assert (Hm : Qfloor y < m).
  { rewrite Zlt_Qlt. lra. }
  destruct (Qcompare_spec (y - inject_Z (Qfloor y)) (1 # 2)) as [He|Hl|Hg].
  - assert (Qfloor y + 1 ≠ m).
    { intros <-. rewrite inject_Z_plus in H. change (inject_Z 1) with 1%Q in H.
      lra. }
    destruct (Z.even (Qfloor y)); lia.
  - exact Hm.
  - assert (Qfloor y + 1 ≠ m).
    { intros <-. rewrite inject_Z_plus in H. change (inject_Z 1) with 1%Q in H.
      lra. }
    lia.
Qed.

Lemma nearest_even_Z (m : Z) (y : Q) :
  (y == inject_Z m)%Q → Double.nearest_even y = m.
Proof.
  intros H. unfold Double.nearest_even.
  rewrite (Qfloor_comp _ _ H), Qfloor_Z.
  destruct (Qcompare_spec (y - inject_Z m) (1 # 2)) as [He|Hl|Hg];
    [lra | reflexivity | lra].
Qed.

Lemma Qred_inject_Z (z : Z) : Qred (inject_Z z) = inject_Z z.
Proof.
  unfold Qred, inject_Z.
  generalize (Z.ggcd_gcd z 1), (Z.ggcd_correct_divisors z 1).
  destruct (Z.ggcd z 1) as [g [r1 r2]]. cbn [fst snd].
  rewrite Z.gcd_1_r. intros Hg [H1 H2]. subst g.
  replace r1 with z by lia. replace r2 with 1 by lia. reflexivity.
Qed.

(** The double nearest to a non-zero [x] whose unit in the last place is
    [2^k], when it does not overflow. *)
Lemma round_finite (x : Q) (k : Z) :
  ¬ (x == 0)%Q →
  Z.max (Double.binade x - 52) (-1074) = k →
  (Qabs (inject_Z (Double.nearest_even (x / 2 ^ k)) * 2 ^ k) < 2 ^ 1024)%Q →
  Double.round x =
    JS.Num (Qred (inject_Z (Double.nearest_even (x / 2 ^ k)) * 2 ^ k)).
Proof.
  intros Hx Hk Hr. unfold Double.round, Double.ulp. rewrite Hk.
  destruct (Qeq_bool x 0) eqn:H0.
  { apply Qeq_bool_iff in H0. contradiction. }
  destruct (Qle_bool _ _) eqn:Hle; [|reflexivity].
  apply Qle_bool_iff in Hle. exfalso. revert Hr. apply Qle_not_lt, Hle.
Qed.

Lemma pow2_53 : (2 ^ 53 == inject_Z (2 ^ 53))%Q.
Proof. apply pow2_inject. lia. Qed.

(** Integers of absolute value below [2^53] are doubles. *)
Lemma round_Z (z : Z) (x : Q) :
  (x == inject_Z z)%Q → Z.abs z < 2 ^ 53 →
  Double.round x = JS.of_Z z.
Proof.
  intros Hxz Hz. destruct (decide (z = 0)) as [->|Hz0].
  { unfold Double.round. rewrite (proj2 (Qeq_bool_iff x 0) Hxz). reflexivity. }
  assert (Hx : ¬ (x == 0)%Q).
  { rewrite Hxz. intros H. apply Hz0. unfold Qeq in H. cbn in H. lia. }
  destruct (binade_spec x Hx) as [Hlo Hhi].
  set (e := Double.binade x) in *.
  assert (Habs : (Qabs x == inject_Z (Z.abs z))%Q).
  { rewrite Hxz. reflexivity. }
  assert (He0 : 0 ≤ e).
  { assert (0 < e + 1); [|lia].
    apply pow2_lt_inv. apply Qle_lt_trans with (Qabs x); [|exact Hhi].
    rewrite Habs. change (2 ^ 0)%Q with (inject_Z 1). rewrite <- Zle_Qle. lia. }
  assert (He : e < 53).
  { apply pow2_lt_inv. apply Qle_lt_trans with (Qabs x); [exact Hlo|].
    rewrite Habs, pow2_53, <- Zlt_Qlt. exact Hz. }
  set (k := e - 52).
  assert (Hk : Z.max (e - 52) (-1074) = k) by lia.
  assert (Hu : (2 ^ (- k) * 2 ^ k == 1)%Q).
  { rewrite <- pow2_plus. replace (- k + k) with 0 by lia. reflexivity. }
  assert (Hpk := pow2_pos k).
  assert (Hy : (x / 2 ^ k == inject_Z (z * 2 ^ (- k)))%Q).
  { rewrite inject_Z_mult, <- (pow2_inject (- k)) by lia. rewrite Hxz.
    apply Qmult_inj_r with (2 ^ k)%Q; [lra|].
    rewrite <- Qmult_assoc, Hu. field. lra. }
  assert (Hr : (inject_Z (Double.nearest_even (x / 2 ^ k)) * 2 ^ k
                == inject_Z z)%Q).
  { rewrite (nearest_even_Z _ _ Hy).
    rewrite inject_Z_mult, <- (pow2_inject (- k)) by lia.
    rewrite <- Qmult_assoc, Hu. ring. }
  rewrite (round_finite x k Hx Hk).
  - rewrite (Qred_complete _ _ Hr), Qred_inject_Z. reflexivity.
  - rewrite Hr. change (Qabs (inject_Z z)) with (inject_Z (Z.abs z)).
    apply Qlt_le_trans with (2 ^ 53)%Q.
    + rewrite pow2_53, <- Zlt_Qlt. exact Hz.
    + apply pow2_le. lia.
Qed.

Lemma Qfloor_unique (m : Z) (q : Q) :
  (inject_Z m <= q)%Q → (q < inject_Z m + 1)%Q → Qfloor q = m.
Proof.
  intros Hlo Hhi.
  apply Qfloor_resp_le in Hlo. rewrite Qfloor_Z in Hlo.
  assert (Hf := Qfloor_le q).
  assert (Qfloor q < m + 1); [|lia].
  rewrite Zlt_Qlt, inject_Z_plus. change (inject_Z 1) with 1%Q. lra.
Qed.

Lemma fold_add_ge (l : list Z) (a : Z) :
  Forall (λ z, 0 ≤ z) l → a ≤ fold_left Z.add l a.
Proof.
  intros Hl. revert a. induction Hl as [|z l Hz _ IH]; intros a; cbn; [lia|].
  specialize (IH (a + z)). lia.
Qed.

(** A sum of non-negative integers that stays below [2^53] is computed
    exactly, whatever the order. *)
Lemma fold_add_exact (l : list Z) (a : Z) :
  0 ≤ a → Forall (λ z, 0 ≤ z) l → fold_left Z.add l a < 2 ^ 53 →
  fold_left Double.add (map JS.of_Z l) (JS.of_Z a)
  = JS.of_Z (fold_left Z.add l a).
Proof.
  intros Ha Hl. revert a Ha.
  induction Hl as [|z l Hz Hl IH]; intros a Ha Hsum; cbn; [reflexivity|].
  cbn in Hsum. assert (Hge := fold_add_ge l (a + z) Hl).
  change (Double.add (JS.of_Z a) (JS.of_Z z))
    with (Double.round (inject_Z a + inject_Z z)).
  rewrite (round_Z (a + z)).
  - apply IH; [lia | exact Hsum].
  - rewrite inject_Z_plus. reflexivity.
  - lia.
Qed.

(** Rounding the quotient to a double before [Math.round] rounds it to an
    integer does not change the integer, for a dividend below [2^52] and a
    divisor that is an array length. *)
Lemma round_div_Math_round (s n : Z) :
  0 ≤ s < 2 ^ 52 → 0 < n < 2 ^ 32 →
  JS.Math_round (Double.div (JS.of_Z s) (JS.of_Z n))
  = JS.Math_round (JS.div (JS.of_Z s) (JS.of_Z n)).
Proof.
  intros Hs Hn. unfold Double.div, JS.div, JS.of_Z.
  assert (Hn0 : (0 < inject_Z n)%Q).
  { change 0%Q with (inject_Z 0). rewrite <- Zlt_Qlt. lia. }
  destruct (Qeq_bool (inject_Z n) 0) eqn:Hz.
  { apply Qeq_bool_iff in Hz. lra. }
  clear Hz. set (x := (inject_Z s / inject_Z n)%Q).
  assert (Hxn : (x * inject_Z n == inject_Z s)%Q).
  { unfold x. field. lra. }
  destruct (decide (s = 0)) as [->|Hs0].
  { assert (Hx0 : (x == 0)%Q).
    { unfold x. field. lra. }
    unfold Double.round. rewrite (proj2 (Qeq_bool_iff x 0) Hx0).
    unfold JS.Math_round. f_equal. apply Qfloor_comp. rewrite Hx0.
    reflexivity. }
  assert (Hs1 : (1 <= inject_Z s)%Q).
  { change 1%Q with (inject_Z 1). rewrite <- Zle_Qle. lia. }
  assert (Hs52 : (inject_Z s < 2 ^ 52)%Q).
  { rewrite (pow2_inject 52) by lia. rewrite <- Zlt_Qlt. lia. }
  assert (Hn1 : (1 <= inject_Z n)%Q).
  { change 1%Q with (inject_Z 1). rewrite <- Zle_Qle. lia. }
  assert (Hn32 : (inject_Z n < 2 ^ 32)%Q).
  { rewrite (pow2_inject 32) by lia. rewrite <- Zlt_Qlt. lia. }
  assert (Hx : (0 < x)%Q).
  { apply Qlt_shift_div_l; lra. }
  assert (Hxs : (x <= inject_Z s)%Q).
  { apply Qle_shift_div_r; [lra|]. nra. }
  assert (Hxne : ¬ (x == 0)%Q) by lra.
  destruct (binade_spec x Hxne) as [Hlo Hhi].
  rewrite (Qabs_pos x) in Hlo, Hhi by lra.
  set (e := Double.binade x) in *.
  assert (He : e < 52).
  { apply pow2_lt_inv. lra. }
  assert (He' : -32 ≤ e).
  { assert (-32 < e + 1); [|lia]. apply pow2_lt_inv.
    apply Qlt_trans with x; [|exact Hhi].
    assert (H32 : (2 ^ (-32) * 2 ^ 32 == 1)%Q).
    { rewrite <- pow2_plus. reflexivity. }
    assert (Hp := pow2_pos (-32)). assert (Hp' := pow2_pos 32).
    apply Qmult_lt_r with (2 ^ 32)%Q; [exact Hp'|]. rewrite H32. nra. }
  set (k := e - 52).
  assert (Hk : Z.max (e - 52) (-1074) = k) by lia.
  set (u := (2 ^ k)%Q).
  assert (Hu : (0 < u)%Q) by apply pow2_pos.
  assert (Hu52 : (u * 2 ^ 52 == 2 ^ e)%Q).
  { unfold u. rewrite <- pow2_plus. replace (k + 52) with e by lia.
    reflexivity. }
  assert (Hnu : (inject_Z n * u < 1)%Q).
  { assert (Hp := pow2_pos 52).
    apply Qmult_lt_r with (2 ^ 52)%Q; [exact Hp|].
    rewrite <- Qmult_assoc, Hu52. nra. }
  set (M := Qfloor (x + (1 # 2))).
  assert (HM1 : (inject_Z M <= x + (1 # 2))%Q) by apply Qfloor_le.
  assert (HM2 : (x + (1 # 2) < inject_Z M + 1)%Q).
  { generalize (Qlt_floor (x + (1 # 2))). fold M. rewrite inject_Z_plus.
    change (inject_Z 1) with 1%Q. tauto. }
  assert (HM0 : 0 ≤ M).
  { assert (-1 < M); [|lia]. rewrite Zlt_Qlt.
    change (inject_Z (-1)) with (-1)%Q. lra. }
  assert (HM0' : (0 <= inject_Z M)%Q).
  { change 0%Q with (inject_Z 0). rewrite <- Zle_Qle. exact HM0. }
  assert (Hstrict : (2 * inject_Z s + 1 <= (2 * inject_Z M + 1) * inject_Z n)%Q).
  { assert (H : 2 * s < (2 * M + 1) * n).
    { rewrite Zlt_Qlt. rewrite !inject_Z_mult, inject_Z_plus, inject_Z_mult.
      change (inject_Z 2) with 2%Q. change (inject_Z 1) with 1%Q. nra. }
    assert (H' : 2 * s + 1 ≤ (2 * M + 1) * n) by lia.
    rewrite Zle_Qle in H'.
    rewrite inject_Z_plus, !inject_Z_mult, inject_Z_plus, inject_Z_mult in H'.
    exact H'. }
  set (h := 2 ^ (-1 - k)).
  assert (Hh : (inject_Z h * u == 1 # 2)%Q).
  { unfold h, u. rewrite <- pow2_inject by lia. rewrite <- pow2_plus.
    replace (-1 - k + k) with (-1) by lia. reflexivity. }
  set (y := (x / u)%Q).
  assert (Hy : (y * u == x)%Q).
  { unfold y. field. lra. }
  set (N := Double.nearest_even y).
  set (r := (inject_Z N * u)%Q).
  assert (Hlow : (inject_Z M - (1 # 2) <= r)%Q).
  { assert (H : (2 * M - 1) * h ≤ N).
    { apply nearest_even_ge. apply Qmult_le_r with u; [exact Hu|].
      rewrite Hy, inject_Z_mult, <- Qmult_assoc, Hh.
      change (2 * M - 1) with (2 * M + (-1)).
      rewrite inject_Z_plus, inject_Z_mult.
      change (inject_Z 2) with 2%Q. change (inject_Z (-1)) with (-1)%Q. lra. }
    rewrite Zle_Qle in H.
    apply (Qmult_le_r _ _ u Hu) in H. fold r in H.
    rewrite inject_Z_mult, <- Qmult_assoc, Hh in H.
    change (2 * M - 1) with (2 * M + (-1)) in H.
    rewrite inject_Z_plus, inject_Z_mult in H.
    change (inject_Z 2) with 2%Q in H. change (inject_Z (-1)) with (-1)%Q in H.
    lra. }
  assert (Hm2 : (inject_Z ((2 * M + 1) * h) * u == inject_Z M + (1 # 2))%Q).
  { rewrite inject_Z_mult, <- Qmult_assoc, Hh.
    rewrite inject_Z_plus, inject_Z_mult.
    change (inject_Z 2) with 2%Q. change (inject_Z 1) with 1%Q. ring. }
  assert (Hgap : (x + (1 # 2) * u < inject_Z M + (1 # 2))%Q).
  { apply Qmult_lt_r with (inject_Z n); [exact Hn0|]. nra. }
  assert (Hupp : (r < inject_Z M + (1 # 2))%Q).
  { assert (H : N < (2 * M + 1) * h).
    { apply nearest_even_lt. apply Qmult_lt_r with u; [exact Hu|].
      rewrite Hy. revert Hm2. generalize (inject_Z ((2 * M + 1) * h)).
      intros m2 Hm2. nra. }
    assert (H' : N + 1 ≤ (2 * M + 1) * h) by lia.
    rewrite Zle_Qle in H'.
    apply (Qmult_le_r _ _ u Hu) in H'. rewrite Hm2 in H'.
    rewrite inject_Z_plus in H'. change (inject_Z 1) with 1%Q in H'.
    fold r. unfold r in *. lra. }
  rewrite (round_finite x k Hxne Hk).
  - fold u y N r. unfold JS.Math_round. f_equal. fold M.
    apply Qfloor_unique; rewrite Qred_correct; lra.
  - fold u y N r. apply Qabs_Qlt_condition.
    assert (H53 : (2 ^ 53 <= 2 ^ 1024)%Q) by (apply pow2_le; lia).
    assert (H5253 : (2 ^ 52 + 2 ^ 52 == 2 ^ 53)%Q) by reflexivity.
    assert (Hp := pow2_pos 52).
    lra.
Qed.

(** X30: on the range of latencies of [latencies_in_range], and for an
    array length below [2^32], the average computed in binary64
    arithmetic is the average of the exact model: the sum is exact and
    the rounding of the quotient to 53 bits does not change the integer
    [Math.round] returns. *)
Theorem avgLatency_double_exact (logs : list LogRecord) :
  latencies_in_range logs →
  Z.of_nat (length logs) < 2 ^ 32 →
  avgLatency_double logs = avgLatency (calculateMetrics logs).
Proof.
  intros [Hpos Hsum] Hlen.
  unfold avgLatency_double. cbn [calculateMetrics avgLatency].
  rewrite !length_map.
  change (fold_left (λ a b, a + b)) with (fold_left Z.add).
  destruct (0 <? length logs)%nat eqn:Hn; [|reflexivity].
  apply Nat.ltb_lt in Hn.
  assert (Hpos' : Forall (λ z, 0 ≤ z) (map Log.latency logs)).
  { clear -Hpos. induction Hpos; cbn; constructor; assumption. }
  assert (Hge := fold_add_ge _ 0 Hpos').
  rewrite <- (map_map Log.latency JS.of_Z).
  change (fold_left (λ a b, Double.add a b))
    with (fold_left Double.add).
  rewrite (fold_add_exact _ 0 ltac:(lia) Hpos') by lia.
  apply round_div_Math_round; lia.
Qed.

Lemma avgLatency_double_exact_example :
  latencies_in_range example_logs
  ∧ Z.of_nat (length example_logs) < 2 ^ 32
  ∧ avgLatency_double example_logs = avgLatency (calculateMetrics example_logs).
Proof.
  split; [exact example_logs_in_range|]. split; [reflexivity|].
  exact (avgLatency_double_exact example_logs example_logs_in_range eq_refl).
Defined.

(** Past that range the binary64 rounding shows.  Three latencies with a
    sum between [2^52] and [2^53] give an average one above the rounded
    exact mean; with a latency of [2^53] the sum, and so the average,
    depends on the order of the records; two latencies of [2^1023]
    give [Infinity]. *)
Example avgLatency_double_beyond_range :
  let record := λ latency, example_record 10 200 latency true in
  (avgLatency_double
     [record 3000000000000001; record 3000000000000000;
      record 3000000000000000] = JS.of_Z 3000000000000001
   ∧ avgLatency (calculateMetrics
       [record 3000000000000001; record 3000000000000000;
        record 3000000000000000]) = JS.of_Z 3000000000000000)
  ∧ (avgLatency_double [record (2 ^ 53); record 1; record 1]
     = JS.of_Z 3002399751580331
     ∧ avgLatency_double [record 1; record 1; record (2 ^ 53)]
       = JS.of_Z 3002399751580332)
  ∧ avgLatency_double [record (2 ^ 1023); record (2 ^ 1023)]
    = JS.PosInfinity.
Proof. vm_compute. repeat split. Qed.

Lemma nearest_even_le (m : Z) (y : Q) :
  (y <= inject_Z m)%Q → Double.nearest_even y ≤ m.
Proof.
  intros H. unfold Double.nearest_even.
  assert (Hf := Qfloor_le y).
  assert (Hm : Qfloor y ≤ m).
  { rewrite Zle_Qle. lra. }
  destruct (Qcompare_spec (y - inject_Z (Qfloor y)) (1 # 2)) as [He|Hl|Hg].
  - assert (Qfloor y ≠ m) by (intros <-; lra).
    destruct (Z.even (Qfloor y)); lia.
  - exact Hm.
  - assert (Qfloor y ≠ m) by (intros <-; lra). lia.
Qed.

Lemma nearest_even_error (y : Q) :
  (Qabs (inject_Z (Double.nearest_even y) - y) <= 1 # 2)%Q.
Proof.
  unfold Double.nearest_even.
  assert (Hf := Qfloor_le y). assert (Hc := Qlt_floor y).
  rewrite inject_Z_plus in Hc. change (inject_Z 1) with 1%Q in Hc.
  apply Qabs_Qle_condition.
  destruct (Qcompare_spec (y - inject_Z (Qfloor y)) (1 # 2)) as [He|Hl|Hg].
  - destruct (Z.even (Qfloor y));
      rewrite ?inject_Z_plus; change (inject_Z 1) with 1%Q; lra.
  - lra.
  - rewrite inject_Z_plus. change (inject_Z 1) with 1%Q. lra.
Qed.

(** The double nearest to a rational between [0] and an integer [c]
    below [2^53] lies between [0] and [c] too, and is within half a unit
    in the last place: within [2^(j-54)] below [2^j]. *)
Lemma round_near (x : Q) (c j : Z) :
  (0 <= x)%Q → (x <= inject_Z c)%Q → c < 2 ^ 53 →
  (x < 2 ^ j)%Q → -1021 ≤ j →
  ∃ d : Q, Double.round x = JS.Num d
           ∧ (0 <= d)%Q ∧ (d <= inject_Z c)%Q
           ∧ (Qabs (d - x) <= 2 ^ (j - 54))%Q.
Proof.
  intros Hx0 Hxc Hc Hxj Hj.
  assert (Hpj := pow2_pos (j - 54)).
  destruct (Qeq_dec x 0) as [Hz|Hxne].
  { exists 0%Q. unfold Double.round.
    rewrite (proj2 (Qeq_bool_iff x 0) Hz).
    split; [reflexivity|]. split; [lra|]. split; [lra|].
    apply Qabs_Qle_condition. lra. }
  destruct (binade_spec x Hxne) as [Hlo Hhi].
  rewrite (Qabs_pos x) in Hlo, Hhi by exact Hx0.
  set (e := Double.binade x) in *.
  assert (Hc' : (inject_Z c < 2 ^ 53)%Q).
  { rewrite pow2_53, <- Zlt_Qlt. exact Hc. }
  assert (He : e < 53) by (apply pow2_lt_inv; lra).
  assert (Hej : e < j) by (apply pow2_lt_inv; lra).
  set (k := Z.max (e - 52) (-1074)).
  assert (Hk0 : k ≤ 0) by lia.
  assert (Hkj : k ≤ j - 53) by lia.
  set (u := (2 ^ k)%Q).
  assert (Hu : (0 < u)%Q) by apply pow2_pos.
  assert (Huj : (u <= 2 * 2 ^ (j - 54))%Q).
  { change 2%Q with (2 ^ 1)%Q at 1. rewrite <- pow2_plus.
    apply pow2_le. lia. }
  set (y := (x / u)%Q).
  assert (Hy : (y * u == x)%Q) by (unfold y; field; lra).
  set (N := Double.nearest_even y).
  set (r := (inject_Z N * u)%Q).
  assert (HN0 : 0 ≤ N).
  { apply nearest_even_ge. apply Qmult_le_r with u; [exact Hu|].
    rewrite Hy. change (inject_Z 0) with 0%Q. lra. }
  assert (Hcu : (inject_Z (c * 2 ^ (- k)) * u == inject_Z c)%Q).
  { rewrite inject_Z_mult, <- (pow2_inject (- k)) by lia.
    unfold u. rewrite <- Qmult_assoc, <- pow2_plus.
    replace (- k + k) with 0 by lia. change (2 ^ 0)%Q with 1%Q. ring. }
  assert (HNc : N ≤ c * 2 ^ (- k)).
  { apply nearest_even_le. apply Qmult_le_r with u; [exact Hu|].
    rewrite Hy, Hcu. exact Hxc. }
  assert (Hr0 : (0 <= r)%Q).
  { unfold r. rewrite Zle_Qle in HN0. change (inject_Z 0) with 0%Q in HN0.
    nra. }
  assert (Hrc : (r <= inject_Z c)%Q).
  { rewrite Zle_Qle in HNc. apply (Qmult_le_r _ _ u Hu) in HNc.
    rewrite Hcu in HNc. exact HNc. }
  assert (Herr : (Qabs (r - x) <= 2 ^ (j - 54))%Q).
  { assert (H := nearest_even_error y). fold N in H.
    apply Qabs_Qle_condition in H. destruct H as [H1 H2].
    apply (Qmult_le_r _ _ u Hu) in H1, H2.
    apply Qabs_Qle_condition. unfold r. split; lra. }
  exists (Qred r).
  split; [|rewrite (Qred_correct r); tauto].
  apply (round_finite x k Hxne eq_refl). fold u y N r.
  apply Qabs_Qlt_condition.
  assert (H53 : (2 ^ 53 <= 2 ^ 1024)%Q) by (apply pow2_le; lia).
  assert (Hp := pow2_pos 53). lra.
Qed.

(** X31: the success rate computed in binary64 arithmetic is a finite
    number between 0 and 100 and differs from the exact percentage of
    the model by at most [2^-45]. *)
Theorem successRate_double_close (logs : list LogRecord) :
  ∃ q p : Q,
    successRate_double logs = JS.Num q
    ∧ successRate (calculateMetrics logs) = JS.Num p
    ∧ (0 <= q)%Q ∧ (q <= 100)%Q
    ∧ (Qabs (q - p) <= 2 ^ (-45))%Q.
Proof.
  pose proof (failed_le_total logs) as Hfailed. cbn in Hfailed.
  unfold successRate_double, calculateMetrics; cbn [successRate].
  set (failed := length (List.filter _ logs)) in *.
  destruct (Nat.ltb_spec 0 (length logs)) as [Hn|Hn].
  2:{ exists 0%Q, 0%Q. repeat split; try reflexivity; discriminate. }
  rewrite div_by_count by exact Hn. cbn [JS.mul JS.of_Z].
  unfold Double.div, JS.of_nat, JS.of_Z.
  rewrite of_nat_nonzero by exact Hn.
  set (t := Z.of_nat (length logs)) in *.
  set (a := t - Z.of_nat failed).
  assert (Ht : (0 < inject_Z t)%Q).
  { rewrite <- (Zlt_Qlt 0). lia. }
  assert (Ha0 : (0 <= inject_Z a)%Q).
  { rewrite <- (Zle_Qle 0). lia. }
  assert (Hat : (inject_Z a <= inject_Z t)%Q).
  { rewrite <- Zle_Qle. lia. }
  set (x := (inject_Z a / inject_Z t)%Q).
  assert (Hx0 : (0 <= x)%Q).
  { apply Qle_shift_div_l; [exact Ht | lra]. }
  assert (Hx1 : (x <= 1)%Q).
  { apply Qle_shift_div_r; [exact Ht | lra]. }
  destruct (round_near x 1 1) as (d & Hd & Hd0 & Hd1 & Hderr);
    [exact Hx0 | exact Hx1 | reflexivity | | lia |].
  { change (2 ^ 1)%Q with 2%Q. lra. }
  change (inject_Z 1) with 1%Q in Hd1.
  rewrite Hd. cbn [Double.mul].
  destruct (round_near (d * inject_Z 100) 100 7) as (q & Hq & Hq0 & Hq1 & Hqerr).
  { change (inject_Z 100) with 100%Q. lra. }
  { change (inject_Z 100) with 100%Q. lra. }
  { reflexivity. }
  { change (inject_Z 100) with 100%Q. change (2 ^ 7)%Q with 128%Q. lra. }
  { lia. }
  change (inject_Z 100) with 100%Q in *.
  exists q, (x * 100)%Q.
  split; [exact Hq|]. split; [reflexivity|].
  split; [exact Hq0|]. split; [exact Hq1|].
  change (2 ^ (1 - 54))%Q with (1 # 9007199254740992)%Q in Hderr.
  change (2 ^ (7 - 54))%Q with (1 # 140737488355328)%Q in Hqerr.
  change (2 ^ (-45))%Q with (1 # 35184372088832)%Q.
  apply Qabs_Qle_condition in Hderr, Hqerr. apply Qabs_Qle_condition.
  lra.
Qed.

(** One success in three records: the double of the code and the exact
    percentage of the model. *)
Example successRate_double_example :
  successRate_double example_logs
  = JS.Num (2345624805922133 # 70368744177664)
  ∧ successRate (calculateMetrics example_logs) = JS.Num (100 # 3).
Proof. vm_compute. split; reflexivity. Qed.

(** ** The chart against the summary *)

Lemma in_hour_total_class (tz : Z → Z) (P : LogRecord → bool)
    (logs : list LogRecord) :
  sum_list (map (λ h, length (List.filter
                                (λ log, in_hour tz h log && P log) logs))
                (seqZ 0 24))
  = length (List.filter P logs).
Proof.
  induction logs as [|log logs IH].
  - by vm_compute.
  - cbn [List.filter]. destruct (P log) eqn:HP.
    + cbn [length]. rewrite <- IH. change (S ?n) with (1 + n)%nat.
      rewrite <- (one_hour_per_record (getHours tz (Log.timestamp log)))
        by apply getHours_range.
      rewrite <- sum_list_map_plus. f_equal. apply map_ext. intros h.
      unfold in_hour at 1. by case_bool_decide.
    + rewrite <- IH. f_equal. apply map_ext. intros h.
      by rewrite andb_false_r.
Qed.

(** X8: the bars add up to the cards: over the 24 bars the requests sum to
    [totalRequests], the errors to [failedRequests] and the successes to
    the rest. *)
Theorem graph_totals_match_metrics (tz : Z → Z) (logs : list LogRecord) :
  sum_list (map Graph.requests (generateGraphData tz logs))
  = totalRequests (calculateMetrics logs)
  ∧ sum_list (map Graph.errors (generateGraphData tz logs))
    = failedRequests (calculateMetrics logs)
  ∧ (sum_list (map Graph.success (generateGraphData tz logs))
     + failedRequests (calculateMetrics logs))%nat
    = totalRequests (calculateMetrics logs).
Proof.
  rewrite generateGraphData_bars, !map_map.
  cbn [bar Graph.requests Graph.errors Graph.success calculateMetrics
       totalRequests failedRequests].
  rewrite (bars_in_range tz Hourly.requests (λ _, true)) by done.
  rewrite (bars_in_range tz Hourly.errors
             (λ log, Log.status log >=? 400)) by done.
  rewrite (bars_in_range tz Hourly.success
             (λ log, negb (Log.status log >=? 400))) by done.
  rewrite !in_hour_total_class.
  split; [|split].
  - apply f_equal, filter_all. done.
  - done.
  - clear. induction logs as [|log logs IH]; [done|]. cbn.
    destruct (Log.status log >=? 400); cbn; lia.
Qed.

(** ** Summary cards *)

(** X9: the "Error Rate" card divides by [totalRequests] without a guard: its
    number is finite exactly when there is a record, and [NaN] for none. *)
Theorem errorRate_card_finite_iff (logs : list LogRecord) :
  (JS.isFinite (errorRate_card (calculateMetrics logs)) = true ↔ logs ≠ [])
  ∧ errorRate_card (calculateMetrics []) = JS.NaN.
Proof.
  split; [|reflexivity]. destruct logs as [|log logs].
  - by split.
  - split; [done|]. intros _. unfold errorRate_card.
    cbn [calculateMetrics totalRequests failedRequests].
    unfold JS.of_nat at 1. by rewrite div_by_count by (cbn; lia).
Qed.

(** ** Refreshing the data *)

Lemma sort_insert_perm {A : Type} (compareFn : A → A → Z) (x : A)
    (sorted : list A) :
  sort_insert compareFn x sorted ≡ₚ x :: sorted.
Proof.
  induction sorted as [|y sorted IH]; [done|]. cbn.
  destruct (0 <? compareFn x y); [|done].
  rewrite IH. apply Permutation_swap.
Qed.

Lemma Array_sort_perm {A : Type} (compareFn : A → A → Z) (xs : list A) :
  Array_sort compareFn xs ≡ₚ xs.
Proof.
  induction xs as [|x xs IH]; [done|].
  cbn. rewrite sort_insert_perm. by rewrite IH.
Qed.

Lemma sort_insert_sorted (x : LogRecord) (sorted : list LogRecord) :
  StronglySorted newer_or_same sorted →
  StronglySorted newer_or_same (sort_insert newest_first x sorted).
Proof.
  induction 1 as [|y sorted Hsorted IH Hy]; cbn.
  - by repeat constructor.
  - unfold newest_first at 1.
    destruct (Z.ltb_spec 0 (Log.timestamp y - Log.timestamp x)) as [Hlt|Hge].
    + constructor; [done|]. rewrite sort_insert_perm.
      constructor; [unfold newer_or_same; lia | done].
    + constructor; [by constructor|].
      constructor; [unfold newer_or_same; lia|].
      eapply Forall_impl; [exact Hy|]. unfold newer_or_same. intros z. lia.
Qed.

Lemma Array_sort_sorted (logs : list LogRecord) :
  StronglySorted newer_or_same (Array_sort newest_first logs).
Proof.
  induction logs as [|log logs IH]; [constructor|].
  by apply sort_insert_sorted.
Qed.

Lemma sort_insert_same_time (t : Z) (x : LogRecord) (sorted : list LogRecord) :
  List.filter (λ log, bool_decide (Log.timestamp log = t))
              (sort_insert newest_first x sorted)
  = List.filter (λ log, bool_decide (Log.timestamp log = t)) (x :: sorted).
Proof.
  induction sorted as [|y sorted IH]; [done|].
  cbn [sort_insert]. unfold newest_first at 1.
  destruct (Z.ltb_spec 0 (Log.timestamp y - Log.timestamp x)); [|done].
  cbn [List.filter] in *. rewrite IH.
  repeat case_bool_decide; try reflexivity; lia.
Qed.

Lemma Array_sort_same_time (t : Z) (logs : list LogRecord) :
  List.filter (λ log, bool_decide (Log.timestamp log = t))
              (Array_sort newest_first logs)
  = List.filter (λ log, bool_decide (Log.timestamp log = t)) logs.
Proof.
  induction logs as [|log logs IH]; [done|].
  cbn [Array_sort foldr]. rewrite sort_insert_same_time.
  cbn [List.filter]. by rewrite <- IH.
Qed.

Lemma Array_sort_of_sorted (logs : list LogRecord) :
  StronglySorted newer_or_same logs → Array_sort newest_first logs = logs.
Proof.
  induction 1 as [|log logs _ IH Hlog]; [done|].
  cbn [Array_sort foldr]. fold (Array_sort newest_first logs). rewrite IH.
  destruct Hlog as [|y logs Hy _]; [done|]. cbn. unfold newest_first.
  destruct (Z.ltb_spec 0 (Log.timestamp y - Log.timestamp log)); [|done].
  unfold newer_or_same in Hy. lia.
Qed.

(** X11: the sort of a refresh puts the records newest first, loses and adds
    none, and keeps the records of one same instant in the order in which
    they were fetched. *)
Theorem sort_newest_first (logs : list LogRecord) :
  Array_sort newest_first logs ≡ₚ logs
  ∧ StronglySorted newer_or_same (Array_sort newest_first logs)
  ∧ Forall (λ t, List.filter (λ log, bool_decide (Log.timestamp log = t))
                             (Array_sort newest_first logs)
                 = List.filter (λ log, bool_decide (Log.timestamp log = t))
                               logs)
           (map Log.timestamp logs).
Proof.
  split; [apply Array_sort_perm|]. split; [apply Array_sort_sorted|].
  apply Forall_forall. intros t _. apply Array_sort_same_time.
Qed.

(** X12: a refresh stores the fetched records newest first together with the
    summary and the chart data of the fetched records, and leaves the
    filter bar and the brush selection alone.  The summary is the one of
    the records as fetched when their latencies are non-negative with a
    sum below [2^52]. *)
Theorem handleRefresh_result (tz : Z → Z) (apiLogs : list LogRecord)
    (d : Dashboard.t) :
  latencies_in_range apiLogs →
  let d' := handleRefresh tz apiLogs d in
  State.logs (Dashboard.state d') ≡ₚ apiLogs
  ∧ StronglySorted newer_or_same (State.logs (Dashboard.state d'))
  ∧ Dashboard.metrics d' = calculateMetrics apiLogs
  ∧ Dashboard.graphData d' = generateGraphData tz apiLogs
  ∧ State.filters (Dashboard.state d') = State.filters (Dashboard.state d)
  ∧ State.selectedTimeRange (Dashboard.state d')
    = State.selectedTimeRange (Dashboard.state d).
Proof.
  intros Hrange. cbv zeta. unfold handleRefresh.
  cbn -[Array_sort calculateMetrics generateGraphData].
  split; [apply Array_sort_perm|]. split; [apply Array_sort_sorted|].
  split; [|split; [|done]].
  - symmetry. apply calculateMetrics_order; [done|].
    symmetry. apply Array_sort_perm.
  - apply generateGraphData_order, Array_sort_perm.
Qed.

Lemma handleRefresh_result_example :
  latencies_in_range mixed_logs
  ∧ map Log.status
      (State.logs (Dashboard.state
         (handleRefresh UTC mixed_logs
            (Dashboard.mk (State.mk [] initial_filters None)
               (calculateMetrics []) []))))
    = [201; 404; 200; 500]
  ∧ Dashboard.metrics
      (handleRefresh UTC mixed_logs
         (Dashboard.mk (State.mk [] initial_filters None)
            (calculateMetrics []) []))
    = calculateMetrics mixed_logs.
Proof.
  assert (Hrange : latencies_in_range mixed_logs)
    by (split; [by repeat constructor | reflexivity]).
  split; [exact Hrange|]. split; [reflexivity|].
  exact (proj1 (proj2 (proj2
           (handleRefresh_result UTC mixed_logs
              (Dashboard.mk (State.mk [] initial_filters None)
                 (calculateMetrics []) []) Hrange)))).
Defined.

(** X13: refreshing again with the records already shown changes nothing. *)
Theorem handleRefresh_again (tz : Z → Z) (apiLogs : list LogRecord)
    (d : Dashboard.t) :
  let d' := handleRefresh tz apiLogs d in
  handleRefresh tz (State.logs (Dashboard.state d')) d' = d'.
Proof.
  cbv zeta. unfold handleRefresh.
  cbn -[Array_sort calculateMetrics generateGraphData].
  by rewrite (Array_sort_of_sorted _ (Array_sort_sorted apiLogs)).
Qed.

(** ** The table filter: how the criteria combine *)

Lemma keep_log_factors (tz : Z → Z) (filters : Filters.t)
    (range : option TimeRange.t) (log : LogRecord) :
  keep_log tz filters range log
  = search_ok filters log && method_ok filters log && status_ok filters log
    && time_range_filter tz range log.
Proof.
  unfold keep_log, search_ok, method_ok, status_ok, JS.truthy.
  destruct filters as [[t|] method status timeRange];
    cbn [Filters.search Filters.method Filters.status].
  - destruct (JS.includes _ _), (time_range_filter tz range log);
      rewrite ?Z.geb_leb, ?Z.ltb_antisym;
      destruct (400 <=? Log.status log);
      repeat case_bool_decide; try reflexivity; congruence.
  - destruct (time_range_filter tz range log);
      rewrite ?Z.geb_leb, ?Z.ltb_antisym;
      destruct (400 <=? Log.status log);
      repeat case_bool_decide; try reflexivity; congruence.
Qed.

(** X14: the criteria are independent tests joined by "and": the filter keeps
    a record exactly when the search, the method, the status and the time
    range each accept it. *)
Theorem filteredLogs_conjunction (tz : Z → Z) (logs : list LogRecord)
    (filters : Filters.t) (range : option TimeRange.t) :
  filteredLogs tz logs filters range
  = List.filter (time_range_filter tz range)
      (List.filter (status_ok filters)
         (List.filter (method_ok filters)
            (List.filter (search_ok filters) logs))).
Proof.
  unfold filteredLogs. induction logs as [|log logs IH]; [done|].
  cbn [List.filter]. rewrite keep_log_factors, IH.
  destruct (search_ok filters log); cbn [andb List.filter]; [|done].
  destruct (method_ok filters log); cbn [andb List.filter]; [|done].
  destruct (status_ok filters log); cbn [andb List.filter]; [|done].
  by destruct (time_range_filter tz range log).
Qed.

(** ** Text search *)










(** ** Status filter *)

Lemma filteredLogs_by_status (tz : Z → Z) (logs : list LogRecord)
    (status : string) :
  filteredLogs tz logs (Filters.set Filters.Status status initial_filters) None
  = List.filter
      (status_ok (Filters.set Filters.Status status initial_filters)) logs.
Proof.
  apply List.filter_ext. intros log. rewrite keep_log_factors.
  cbn [time_range_filter]. by rewrite andb_true_r.
Qed.

(** X15: with only the status filter set, "error" keeps the records with a
    status of 400 or more and "success" the others; the two selections
    split the log array, and the number of error rows is the
    [failedRequests] of the summary. *)
Theorem status_filter_splits (tz : Z → Z) (logs : list LogRecord) :
  let errors :=
    filteredLogs tz logs
      (Filters.set Filters.Status "error" initial_filters) None in
  let successes :=
    filteredLogs tz logs
      (Filters.set Filters.Status "success" initial_filters) None in
  errors = List.filter (λ log, Log.status log >=? 400) logs
  ∧ successes = List.filter (λ log, Log.status log <? 400) logs
  ∧ length errors = failedRequests (calculateMetrics logs)
  ∧ (length successes + length errors)%nat = length logs.
Proof.
  cbv zeta. rewrite !filteredLogs_by_status.
  assert (He : List.filter
                 (status_ok (Filters.set Filters.Status "error"
                               initial_filters)) logs
               = List.filter (λ log, Log.status log >=? 400) logs)
    by (by apply List.filter_ext).
  assert (Hs : List.filter
                 (status_ok (Filters.set Filters.Status "success"
                               initial_filters)) logs
               = List.filter (λ log, Log.status log <? 400) logs)
    by (by apply List.filter_ext).
  rewrite He, Hs. split; [done|]. split; [done|]. split; [done|].
  clear. induction logs as [|log logs IH]; [done|]. cbn.
  rewrite Z.geb_leb, Z.leb_antisym.
  destruct (Log.status log <? 400); cbn; lia.
Qed.

Lemma status_ok_other (search method status timeRange : option string)
    (log : LogRecord) :
  status ≠ Some "success" → status ≠ Some "error" →
  status_ok (Filters.mk search method status timeRange) log = true.
Proof.
  intros Hs He. unfold status_ok. cbn [Filters.status].
  by rewrite !bool_decide_eq_false_2.
Qed.

(** X16: a status criterion that is neither "success" nor "error" filters
    nothing: absent (after its chip was removed) or any other value, it
    acts as "all". *)
Theorem status_other_is_all (tz : Z → Z) (logs : list LogRecord)
    (search method status timeRange : option string)
    (range : option TimeRange.t) :
  status ≠ Some "success" → status ≠ Some "error" →
  filteredLogs tz logs (Filters.mk search method status timeRange) range
  = filteredLogs tz logs (Filters.mk search method (Some "all") timeRange)
      range.
Proof.
  intros Hs He. apply List.filter_ext. intros log.
  rewrite !keep_log_factors, !status_ok_other by done. reflexivity.
Qed.

Lemma status_other_is_all_example :
  let removed := (removeFilter Filters.Status
                    (State.mk mixed_logs initial_filters None)).2 in
  Filters.status (State.filters removed) = None
  ∧ filteredLogs UTC mixed_logs (State.filters removed) None
    = filteredLogs UTC mixed_logs initial_filters None.
Proof.
  cbv zeta. split; [reflexivity|].
  exact (status_other_is_all UTC mixed_logs (Some "") (Some "all") None
           (Some "1h") None ltac:(discriminate) ltac:(discriminate)).
Defined.

(** ** Time range filter *)

Lemma time_range_filter_labels (tz : Z → Z) (s e : Z) (log : LogRecord) :
  0 ≤ s < 24 → 0 ≤ e < 24 →
  time_range_filter tz (Some (TimeRange.mk (hour_label s) (hour_label e))) log
  = hour_between tz s e log.
Proof.
  intros Hs He. unfold time_range_filter, hour_between.
  cbn [TimeRange.startTime TimeRange.endTime].
  fold (hour_label (getHours tz (Log.timestamp log))).
  rewrite !parse_hour_label by (done || apply getHours_range).
  rewrite lt_of_Z, gt_of_Z.
  destruct (Z.ltb_spec (getHours tz (Log.timestamp log)) s),
    (Z.ltb_spec e (getHours tz (Log.timestamp log))),
    (Z.leb_spec s (getHours tz (Log.timestamp log))),
    (Z.leb_spec (getHours tz (Log.timestamp log)) e);
    cbn; (reflexivity || lia).
Qed.

Lemma initial_criteria_ok (log : LogRecord) :
  search_ok initial_filters log && method_ok initial_filters log
  && status_ok initial_filters log = true.
Proof. reflexivity. Qed.

(** X17: a time range between the labels of two bars keeps the records whose
    local hour lies between the two hours, both ends included; from
    ["00:00"] to ["23:00"] it keeps them all. *)
Theorem time_range_inclusive (tz : Z → Z) (logs : list LogRecord) (s e : Z) :
  0 ≤ s < 24 → 0 ≤ e < 24 →
  filteredLogs tz logs initial_filters
    (Some (TimeRange.mk (hour_label s) (hour_label e)))
  = List.filter (hour_between tz s e) logs
  ∧ filteredLogs tz logs initial_filters
      (Some (TimeRange.mk (hour_label 0) (hour_label 23)))
    = logs.
Proof.
  intros Hs He. split.
  - apply List.filter_ext. intros log.
    by rewrite keep_log_factors, initial_criteria_ok,
      time_range_filter_labels.
  - apply filter_all. intros log.
    rewrite keep_log_factors, initial_criteria_ok,
      time_range_filter_labels by lia.
    unfold hour_between. pose proof (getHours_range tz (Log.timestamp log)).
    cbn [andb]. apply andb_true_iff. split; apply Z.leb_le; lia.
Qed.

Lemma time_range_inclusive_example :
  (0 ≤ 10 < 24 ∧ 0 ≤ 10 < 24)
  ∧ map Log.status
      (filteredLogs UTC example_logs initial_filters
         (Some (TimeRange.mk (hour_label 10) (hour_label 10))))
    = [200; 500].
Proof.
  split; [lia|].
  rewrite (proj1 (time_range_inclusive UTC example_logs 10 10
                    ltac:(lia) ltac:(lia))).
  reflexivity.
Defined.

(** ** Brushing the chart *)

Lemma hour_label_truthy (h : Z) :
  0 ≤ h < 24 → JS.truthy (hour_label h) = true.
Proof.
  revert h. apply hours_enumerated. each_hour ltac:(vm_compute; reflexivity).
Qed.

Lemma generateGraphData_at (tz : Z → Z) (logs : list LogRecord) (h : Z) :
  0 ≤ h < 24 →
  at_index (generateGraphData tz logs) h = Some (bar tz logs h).
Proof.
  intros Hh. unfold at_index. destruct (Z.ltb_spec h 0); [lia|].
  rewrite generateGraphData_bars.
  change (map (bar tz logs) (seqZ 0 24)) with (bar tz logs <$> seqZ 0 24).
  rewrite list_lookup_fmap, lookup_seqZ_lt by lia.
  cbn. f_equal. f_equal. lia.
Qed.

Lemma render_filteredLogs_value (tz : Z → Z) (st : State.t) :
  (render_filteredLogs tz st).1
  = filteredLogs tz (State.logs st) (State.filters st)
      (State.selectedTimeRange st).
Proof.
  unfold render_filteredLogs, filteredLogs, read.
  unfold mbind at 1, Render_bind at 1.
  by rewrite (Array_filter_spec _ _ _ _ (λ log, keep_log_render_spec tz log st)).
Qed.

Lemma sum_list_append (xs ys : list nat) :
  sum_list (xs ++ ys) = (sum_list xs + sum_list ys)%nat.
Proof. induction xs as [|x xs IH]; cbn; lia. Qed.

Lemma hour_indicator_range (g m : Z) (n : nat) :
  sum_list (map (λ h, if bool_decide (g = h) then 1%nat else 0%nat)
                (seqZ m (Z.of_nat n)))
  = if bool_decide (m ≤ g < m + Z.of_nat n) then 1%nat else 0%nat.
Proof.
  induction n as [|n IH].
  - cbn. by rewrite bool_decide_eq_false_2 by lia.
  - rewrite seqZ_S, map_app, sum_list_append, IH. cbn [map sum_list].
    repeat case_bool_decide; unfold id; lia.
Qed.

Lemma hour_between_count (tz : Z → Z) (logs : list LogRecord) (s : Z)
    (n : nat) :
  length (List.filter (hour_between tz s (s + Z.of_nat n - 1)) logs)
  = sum_list (map (λ h, length (List.filter (in_hour tz h) logs))
                  (seqZ s (Z.of_nat n))).
Proof.
  induction logs as [|log logs IH].
  - cbn. induction (seqZ s (Z.of_nat n)) as [|h hs IHh]; [done|]. by cbn.
  - cbn [List.filter].
    transitivity
      (Nat.add
         (if bool_decide (s ≤ getHours tz (Log.timestamp log) < s + Z.of_nat n)
          then 1%nat else 0%nat)
         (sum_list (map (λ h, length (List.filter (in_hour tz h) logs))
                        (seqZ s (Z.of_nat n))))).
    + rewrite <- IH. unfold hour_between at 1.
      destruct (Z.leb_spec s (getHours tz (Log.timestamp log))),
        (Z.leb_spec (getHours tz (Log.timestamp log)) (s + Z.of_nat n - 1));
        case_bool_decide; cbn; lia.
    + rewrite <- hour_indicator_range, <- sum_list_map_plus.
      f_equal. apply map_ext. intros h. cbn [List.filter].
      change (in_hour tz h log)
        with (bool_decide (getHours tz (Log.timestamp log) = h)).
      by case_bool_decide.
Qed.

Lemma seqZ_slice (i n : Z) :
  0 ≤ i → 0 ≤ n → i + n ≤ 24 →
  take (Z.to_nat n) (drop (Z.to_nat i) (seqZ 0 24)) = seqZ i n.
Proof.
  intros Hi Hn Hin.
  replace 24 with (i + (n + (24 - i - n))) at 1 by lia.
  rewrite !seqZ_app by lia.
  rewrite drop_app_length' by (rewrite length_seqZ; lia).
  rewrite take_app_length' by (rewrite length_seqZ; lia).
  f_equal.
Qed.

(** X18: brushing the bars from index [i] to index [j] of the chart selects
    the time range between their labels; with no other criterion the
    table then shows the records of these hours, as many rows as the
    brushed bars count requests.  The log array and the filter bar are
    left as they were. *)
Theorem brush_shows_brushed_bars (tz : Z → Z) (logs : list LogRecord)
    (i j : Z) (chart : Chart.t) (old : option TimeRange.t) :
  0 ≤ i ≤ j → j < 24 →
  let graphData := generateGraphData tz logs in
  let r := handleBrushChange graphData (Some (Brush.mk (Some i) (Some j)))
             chart (State.mk logs initial_filters old) in
  r.1 = Chart.mk (Some i) (Some j)
  ∧ r.2 = State.mk logs initial_filters
            (Some (TimeRange.mk (hour_label i) (hour_label j)))
  ∧ (render_filteredLogs tz r.2).1 = List.filter (hour_between tz i j) logs
  ∧ length (render_filteredLogs tz r.2).1
    = sum_list (map Graph.requests
                    (take (Z.to_nat (j - i + 1))
                          (drop (Z.to_nat i) graphData))).
Proof.
  intros Hij Hj. cbv zeta.
  assert (Hr : handleBrushChange (generateGraphData tz logs)
                 (Some (Brush.mk (Some i) (Some j))) chart
                 (State.mk logs initial_filters old)
               = (Chart.mk (Some i) (Some j),
                  State.mk logs initial_filters
                    (Some (TimeRange.mk (hour_label i) (hour_label j))))).
  { unfold handleBrushChange. rewrite !generateGraphData_at by lia.
    cbn [fmap option_fmap option_map bar Graph.time truthy_value
         handleTimeRangeSelect].
    by rewrite !hour_label_truthy by lia. }
  rewrite Hr. cbn [fst snd].
  assert (Hshown : (render_filteredLogs tz
                      (State.mk logs initial_filters
                         (Some (TimeRange.mk (hour_label i) (hour_label j))))).1
                   = List.filter (hour_between tz i j) logs).
  { rewrite render_filteredLogs_value.
    cbn [State.logs State.filters State.selectedTimeRange].
    apply List.filter_ext. intros log.
    by rewrite keep_log_factors, initial_criteria_ok,
      time_range_filter_labels by lia. }
  split; [done|]. split; [done|]. split; [exact Hshown|].
  rewrite Hshown, generateGraphData_bars.
  change (map (bar tz logs) (seqZ 0 24)) with (bar tz logs <$> seqZ 0 24).
  rewrite <- fmap_drop, <- fmap_take, seqZ_slice by lia.
  replace j with (i + Z.of_nat (Z.to_nat (j - i + 1)) - 1) at 1 by lia.
  rewrite hour_between_count, Z2Nat.id by lia.
  change (map Graph.requests (bar tz logs <$> seqZ i (j - i + 1)))
    with (map Graph.requests (map (bar tz logs) (seqZ i (j - i + 1)))).
  rewrite map_map. f_equal. apply map_ext_in.
  intros h Hh%list_elem_of_In%elem_of_seqZ.
  cbn [bar Graph.requests tally Hourly.requests].
  rewrite hits_in_hour by lia. f_equal. apply List.filter_ext. intros log.
  by rewrite andb_true_r.
Qed.

Lemma brush_shows_brushed_bars_example :
  (0 ≤ 10 ≤ 11 ∧ 11 < 24)
  ∧ map Log.status
      (render_filteredLogs UTC
         (handleBrushChange (generateGraphData UTC mixed_logs)
            (Some (Brush.mk (Some 10) (Some 11))) (Chart.mk None None)
            (State.mk mixed_logs initial_filters None)).2).1
    = [200; 500; 404].
Proof.
  split; [lia|].
  destruct (brush_shows_brushed_bars UTC mixed_logs 10 11 (Chart.mk None None)
              None ltac:(lia) ltac:(lia)) as (_ & _ & -> & _).
  reflexivity.
Defined.

(** X19: a brush event with an index outside the chart data records the
    indices in the chart but selects nothing: the component state is left
    untouched.  An event without numeric indices changes nothing at
    all. *)
Theorem brush_outside_ignored (graphData : list Graph.t) (i j : Z)
    (chart : Chart.t) (st : State.t) :
  i < 0 ∨ Z.of_nat (length graphData) ≤ i →
  handleBrushChange graphData (Some (Brush.mk (Some i) (Some j))) chart st
  = (Chart.mk (Some i) (Some j), st)
  ∧ handleBrushChange graphData (Some (Brush.mk (Some j) (Some i))) chart st
    = (Chart.mk (Some j) (Some i), st)
  ∧ handleBrushChange graphData (Some (Brush.mk None (Some j))) chart st
    = (chart, st)
  ∧ handleBrushChange graphData None chart st = (chart, st).
Proof.
  intros Hi.
  assert (Hnone : at_index graphData i = None).
  { unfold at_index. destruct (Z.ltb_spec i 0); [done|].
    apply lookup_ge_None. lia. }
  unfold handleBrushChange. rewrite Hnone. cbn [fmap option_fmap option_map truthy_value andb].
  rewrite andb_false_r. done.
Qed.

Lemma brush_outside_ignored_example :
  (24 < 0 ∨ Z.of_nat (length (generateGraphData UTC example_logs)) ≤ 24)
  ∧ (handleBrushChange (generateGraphData UTC example_logs)
       (Some (Brush.mk (Some 24) (Some 25))) (Chart.mk None None)
       (State.mk example_logs initial_filters None)).2
    = State.mk example_logs initial_filters None.
Proof.
  assert (H : 24 < 0 ∨ Z.of_nat (length (generateGraphData UTC example_logs))
                       ≤ 24) by (right; vm_compute; discriminate).
  split; [exact H|].
  destruct (brush_outside_ignored (generateGraphData UTC example_logs) 24 25
              (Chart.mk None None)
              (State.mk example_logs initial_filters None) H) as [-> _].
  reflexivity.
Defined.

(** ** Search *)

Lemma keep_log_enhanced_of_basic (tz : Z → Z) (filters : Filters.t)
    (range : option TimeRange.t) (log : LogRecord) :
  keep_log tz filters range log = true →
  keep_log_enhanced tz filters range log = true.
Proof.
  unfold keep_log, keep_log_enhanced.
  destruct (Filters.search filters) as [t|]; [|done].
  destruct (JS.truthy t); [|done]. cbn [andb].
  by destruct (JS.includes (JS.toLowerCase (Log.endpoint log)) _).
Qed.

(** X21: the enhanced search only widens the basic one: every row of the
    basic filter is a row of the enhanced filter, in the same order. *)
Theorem filteredLogs_within_enhanced (tz : Z → Z) (logs : list LogRecord)
    (filters : Filters.t) (range : option TimeRange.t) :
  filteredLogs tz logs filters range
  = List.filter (keep_log tz filters range)
      (filteredLogs_enhanced tz logs filters range).
Proof.
  unfold filteredLogs, filteredLogs_enhanced.
  induction logs as [|log logs IH]; [done|]. cbn [List.filter].
  destruct (keep_log tz filters range log) eqn:Hkeep.
  - rewrite (keep_log_enhanced_of_basic _ _ _ _ Hkeep). cbn [List.filter].
    by rewrite Hkeep, IH.
  - destruct (keep_log_enhanced tz filters range log); [|done].
    cbn [List.filter]. by rewrite Hkeep.
Qed.

Lemma toLowerCase_empty (t : string) :
  JS.toLowerCase t = "" ↔ t = "".
Proof. by destruct t. Qed.

(** X22: the search ignores the case of the search text: two texts with the
    same lower-case form select the same rows, in both versions. *)
Theorem search_text_case_ignored (tz : Z → Z) (logs : list LogRecord)
    (t t' : string) (method status timeRange : option string)
    (range : option TimeRange.t) :
  JS.toLowerCase t = JS.toLowerCase t' →
  filteredLogs tz logs (Filters.mk (Some t) method status timeRange) range
  = filteredLogs tz logs (Filters.mk (Some t') method status timeRange) range
  ∧ filteredLogs_enhanced tz logs
      (Filters.mk (Some t) method status timeRange) range
    = filteredLogs_enhanced tz logs
        (Filters.mk (Some t') method status timeRange) range.
Proof.
  intros Hcase.
  assert (Htruthy : JS.truthy t = JS.truthy t').
  { unfold JS.truthy. apply bool_decide_ext.
    by rewrite <- (toLowerCase_empty t), <- (toLowerCase_empty t'), Hcase. }
  split; apply List.filter_ext; intros log;
    unfold keep_log, keep_log_enhanced; cbn [Filters.search];
    by rewrite Hcase, Htruthy.
Qed.

Lemma search_text_case_ignored_example :
  JS.toLowerCase "Api/USERS" = JS.toLowerCase "api/users"
  ∧ filteredLogs UTC mixed_logs
      (Filters.mk (Some "Api/USERS") (Some "all") (Some "all") (Some "1h"))
      None
    = filteredLogs UTC mixed_logs
        (Filters.mk (Some "api/users") (Some "all") (Some "all") (Some "1h"))
        None.
Proof.
  assert (H : JS.toLowerCase "Api/USERS" = JS.toLowerCase "api/users")
    by reflexivity.
  split; [exact H|].
  exact (proj1 (search_text_case_ignored UTC mixed_logs "Api/USERS"
                  "api/users" (Some "all") (Some "all") (Some "1h") None H)).
Defined.

(** ** Hour labels *)

(** X23: the labels of the 24 bars can be read back: parsing a label as the
    time-range filter does gives the hour, so two hours never share a
    label. *)
Theorem hour_label_round_trip (g h : Z) :
  0 ≤ g < 24 → 0 ≤ h < 24 →
  JS.parseInt (JS.first_string (JS.split ":" (hour_label h))) = JS.of_Z h
  ∧ (hour_label g = hour_label h → g = h).
Proof.
  intros Hg Hh. split; [by apply parse_hour_label | by apply hour_label_inj].
Qed.

Lemma hour_label_round_trip_example :
  (0 ≤ 7 < 24 ∧ 0 ≤ 19 < 24)
  ∧ JS.parseInt (JS.first_string (JS.split ":" (hour_label 19))) = JS.of_Z 19.
Proof.
  split; [lia|].
  exact (proj1 (hour_label_round_trip 7 19 ltac:(lia) ltac:(lia))).
Defined.

(** ** Filter chips *)

(** X24: a chip is shown for the method exactly when the method drop-down
    shows something other than "all", and it carries the value shown. *)
Theorem method_chip_matches_dropdown (filters : Filters.t) (v : string) :
  activeFilter filters Filters.Method = Some v
  ↔ displayed_method filters = v ∧ v ≠ "all".
Proof.
  unfold activeFilter, displayed_method, JS.truthy.
  destruct (Filters.method filters) as [m|].
  - repeat case_bool_decide; cbn; split;
      try (intros [= <-]); try (intros [<- ?]); try done; congruence.
  - split; [done | by intros [<- ?]].
Qed.

(** X25: removing a chip removes that chip and no other, and leaves the log
    array and the brush selection alone. *)
Theorem removeFilter_chips (key : Filters.key) (st : State.t) :
  let st' := (removeFilter key st).2 in
  activeFilter (State.filters st') key = None
  ∧ Forall (λ key', key' = key
                    ∨ activeFilter (State.filters st') key'
                      = activeFilter (State.filters st) key')
           [Filters.Search; Filters.Method; Filters.Status; Filters.TimeRange]
  ∧ State.logs st' = State.logs st
  ∧ State.selectedTimeRange st' = State.selectedTimeRange st.
Proof.
  cbv zeta. destruct st as [logs [search method status timeRange] range].
  split; [by destruct key|]. split; [|done].
  destruct key;
    repeat (apply Forall_cons; split;
            [first [left; reflexivity | right; reflexivity]|]);
    apply Forall_nil_2.
Qed.

(** X26: "Clear all" makes the table show every record again, whatever the
    filter bar and the selection were (an absent method included); the
    log array is left alone and the chip of the time range ["1h"] stays. *)
Theorem resetFilters_shows_all (tz : Z → Z) (st : State.t) :
  let st' := (resetFilters st).2 in
  (render_filteredLogs tz st').1 = State.logs st
  ∧ State.logs st' = State.logs st
  ∧ State.selectedTimeRange st' = None
  ∧ activeFilter (State.filters st') Filters.TimeRange = Some "1h".
Proof.
  cbv zeta. rewrite render_filteredLogs_value.
  split; [|done]. apply filteredLogs_initial_filters.
Qed.

(** X20: whatever the brush event, brushing touches only the selected time
    range, and [resetBrush] clears it: the log array and the filter bar
    are as before. *)
Theorem brush_then_reset (graphData : list Graph.t)
    (brushData : option Brush.t) (chart : Chart.t) (st : State.t) :
  let brushed := handleBrushChange graphData brushData chart st in
  State.logs brushed.2 = State.logs st
  ∧ State.filters brushed.2 = State.filters st
  ∧ resetBrush brushed.2
    = (Chart.mk None None, State.mk (State.logs st) (State.filters st) None).
Proof.
  cbv zeta. unfold handleBrushChange, resetBrush.
  destruct brushData as [[[i|] [j|]]|]; try done.
  destruct (truthy_value _ && truthy_value _) eqn:Htruthy; [|done].
  destruct (Graph.time <$> at_index graphData i) as [startTime|]; [|done].
  destruct (Graph.time <$> at_index graphData j) as [endTime|];
    [|by rewrite andb_false_r in Htruthy].
  cbn in Htruthy. cbn [handleTimeRangeSelect]. by rewrite Htruthy.
Qed.

(** ** Log table *)

(** X27: the colour of a status badge tells the class of the status, in both
    themes: the warning or error colour exactly for a status of 400 or
    more (the records that count as failed), the success or primary
    colour exactly for 200 to 399, and the muted colour below 200; the
    background is the text colour with ["20"] appended. *)
Theorem getStatusColors_classes (isDark : bool) (status : Z) :
  let colors := theme_colors isDark in
  let badge := getStatusColors colors status in
  (Badge.text badge = Colors.error colors ↔ 500 ≤ status)
  ∧ (Badge.text badge = Colors.warning colors ↔ 400 ≤ status < 500)
  ∧ (Badge.text badge = Colors.primary colors ↔ 300 ≤ status < 400)
  ∧ (Badge.text badge = Colors.success colors ↔ 200 ≤ status < 300)
  ∧ (Badge.text badge = Colors.textMuted colors ↔ status < 200)
  ∧ Badge.bg badge = Badge.text badge +:+ "20".
Proof.
  cbv zeta. unfold getStatusColors.
  destruct (Z.geb_spec status 200), (Z.ltb_spec status 300),
    (Z.geb_spec status 300), (Z.ltb_spec status 400),
    (Z.geb_spec status 400), (Z.ltb_spec status 500),
    (Z.geb_spec status 500); try lia;
    destruct isDark; cbn; repeat split; intros; (done || lia).
Qed.

(** X28: expanding and collapsing a row: toggling a row twice gives back the
    set of expanded rows, a toggle flips the row it names and no other. *)
Theorem toggleRowExpansion_flips (logId : string) (prev : gset string) :
  toggleRowExpansion logId (toggleRowExpansion logId prev) = prev
  ∧ (logId ∈ toggleRowExpansion logId prev ↔ logId ∉ prev)
  ∧ ∀ other, other ≠ logId →
      (other ∈ toggleRowExpansion logId prev ↔ other ∈ prev).
Proof.
  unfold toggleRowExpansion.
  destruct (decide (logId ∈ prev)) as [Hin|Hout].
  - rewrite (bool_decide_eq_true_2 _ Hin).
    rewrite (bool_decide_eq_false_2 (logId ∈ prev ∖ {[logId]}))
      by (rewrite elem_of_difference, elem_of_singleton; tauto).
    split; [|split].
    + apply set_eq. intros x.
      rewrite elem_of_union, elem_of_difference, elem_of_singleton.
      destruct (decide (x = logId)) as [->|]; tauto.
    + rewrite elem_of_difference, elem_of_singleton. tauto.
    + intros other Hother.
      rewrite elem_of_difference, elem_of_singleton. tauto.
  - rewrite (bool_decide_eq_false_2 _ Hout).
    rewrite (bool_decide_eq_true_2 (logId ∈ prev ∪ {[logId]}))
      by (rewrite elem_of_union, elem_of_singleton; tauto).
    split; [|split].
    + apply set_eq. intros x.
      rewrite elem_of_difference, elem_of_union, elem_of_singleton.
      destruct (decide (x = logId)) as [->|]; tauto.
    + rewrite elem_of_union, elem_of_singleton. tauto.
    + intros other Hother. rewrite elem_of_union, elem_of_singleton. tauto.
Qed.

Lemma substring_0_length (n : nat) (text : string) :
  String.length (substring_0 n text) = Nat.min n (String.length text).
Proof.
  revert text. induction n as [|n IH]; intros [|c text]; cbn; try done.
  by rewrite IH.
Qed.

Lemma substring_0_append (n : nat) (text rest : string) :
  (n ≤ String.length text)%nat →
  substring_0 n (text +:+ rest) = substring_0 n text.
Proof.
  revert text. induction n as [|n IH]; intros text Hn; [done|].
  destruct text as [|c text]; cbn in Hn; [lia|].
  rewrite append_cons. cbn [substring_0]. by rewrite IH by lia.
Qed.

Lemma substring_0_idemp (n : nat) (text : string) :
  substring_0 n (substring_0 n text) = substring_0 n text.
Proof.
  revert text. induction n as [|n IH]; intros [|c text]; cbn; try done.
  by rewrite IH.
Qed.

Lemma append_length (s t : string) :
  String.length (s +:+ t) = (String.length s + String.length t)%nat.
Proof.
  induction s as [|c s IH]; [done|]. rewrite append_cons. cbn. by rewrite IH.
Qed.

(** X29: [truncateText] never returns more than [maxLength + 3] characters,
    returns a text of at most [maxLength] characters unchanged, keeps the
    first [maxLength] characters of a longer one, and truncating twice is
    truncating once. *)
Theorem truncateText_bounds (text : string) (maxLength : nat) :
  (String.length (truncateText text maxLength) ≤ maxLength + 3)%nat
  ∧ ((String.length text ≤ maxLength)%nat →
     truncateText text maxLength = text)
  ∧ substring_0 maxLength (truncateText text maxLength)
    = substring_0 maxLength text
  ∧ truncateText (truncateText text maxLength) maxLength
    = truncateText text maxLength.
Proof.
  unfold truncateText.
  destruct (Nat.leb_spec (String.length text) maxLength) as [Hle|Hgt].
  - rewrite (proj2 (Nat.leb_le _ _) Hle). repeat split; (done || lia).
  - assert (Hlen : String.length (substring_0 maxLength text) = maxLength)
      by (rewrite substring_0_length; lia).
    assert (Hcut : String.length (substring_0 maxLength text +:+ "...")
                   = (maxLength + 3)%nat)
      by (rewrite append_length, Hlen; reflexivity).
    rewrite Hcut.
    destruct (Nat.leb_spec (maxLength + 3) maxLength); [lia|].
    rewrite substring_0_append, substring_0_idemp by lia.
    repeat split; (done || lia).
Qed.
